(** * nilmtk.datastore

    A shallow embedding of [nilmtk/datastore.py]: the windowed, chunked
    reader [HDFDataStore.load] with its look-ahead buffer, the memory
    estimator and guard, the handle life cycle, the path joiner [join_key]
    and the location [Key].

    Python values are modelled as follows.
    - [str] is [string]; [int] is [Z] (Python integers do not wrap).
    - [None] is the [None] of an [option].
    - an exception is a value of [exn]; a function that may raise returns
      a [result].
    - a generator is the finite trace [gen] of what it yields, closed by a
      normal stop, by an exception, or by an engine iterator that never
      yields. *)

From Stdlib Require Import ZArith List String Ascii Bool Lia Sorted.
From Stdlib Require Import QArith DecimalString Decimal.
From Stdlib Require Import DecimalZ.
Import ListNotations.

Local Open Scope list_scope.
Local Open Scope string_scope.
Local Open Scope Z_scope.

(** ** Python string primitives *)

Module Py.

(** [s.lstrip(chars)], with the character set given as a predicate. *)
Fixpoint lstrip (p : ascii -> bool) (s : string) : string :=
  match s with
  | EmptyString => EmptyString
  | String c s' => if p c then lstrip p s' else s
  end.

(** [s.rstrip(chars)]. *)
Fixpoint rstrip (p : ascii -> bool) (s : string) : string :=
  match s with
  | EmptyString => EmptyString
  | String c s' =>
      match rstrip p s' with
      | EmptyString => if p c then EmptyString else String c EmptyString
      | r => String c r
      end
  end.

(** [s.strip(chars)]. *)
Definition strip (p : ascii -> bool) (s : string) : string :=
  rstrip p (lstrip p s).

Definition is_slash (c : ascii) : bool := Ascii.eqb c "/".

(** ASCII white space, as removed by [int()] around its argument. *)
Definition is_space (c : ascii) : bool :=
  let n := nat_of_ascii c in
  (Nat.eqb n 32 || (Nat.leb 9 n && Nat.leb n 13))%bool.

(** The truth value of a string: non-empty. *)
Definition truthy (s : string) : bool :=
  match s with EmptyString => false | String _ _ => true end.

(** [s[:-1]]. *)
Fixpoint drop_last (s : string) : string :=
  match s with
  | EmptyString => EmptyString
  | String c EmptyString => EmptyString
  | String c s' => String c (drop_last s')
  end.

(** [s[-1]], when there is one. *)
Fixpoint last_char (s : string) : option ascii :=
  match s with
  | EmptyString => None
  | String c EmptyString => Some c
  | String _ s' => last_char s'
  end.

(** [s[0]], when there is one. *)
Definition first_char (s : string) : option ascii :=
  match s with EmptyString => None | String c _ => Some c end.

(** [s.split('/')]: always at least one piece. *)
Fixpoint split_slash (s : string) : list string :=
  match s with
  | EmptyString => [EmptyString]
  | String c s' =>
      if is_slash c then EmptyString :: split_slash s'
      else match split_slash s' with
           | h :: t => String c h :: t
           | [] => [String c EmptyString]
           end
  end.

(** [s.startswith(p)]. *)
Definition startswith (s p : string) : bool := String.prefix p s.

(** [s.replace(old, "")] for a non-empty [old]: every occurrence of
    [old], scanning from the left without overlap, is removed.  [skip]
    counts the characters of a matched occurrence still to be dropped. *)
Fixpoint remove_from (old : string) (skip : nat) (s : string) : string :=
  match s with
  | EmptyString => EmptyString
  | String c s' =>
      match skip with
      | S k => remove_from old k s'
      | O =>
          if String.prefix old s
          then remove_from old (Nat.pred (String.length old)) s'
          else String c (remove_from old O s')
      end
  end.

Definition remove_all (old s : string) : string := remove_from old O s.

(** [str(z)] and ["{:d}".format(z)]: the decimal numeral. *)
Definition str_int (z : Z) : string := NilZero.string_of_int (Z.to_int z).

(** [str(l)] for a list of strings without quotes or escapes in them. *)
Definition str_list (l : list string) : string :=
  "[" ++ String.concat ", " (map (fun x => "'" ++ x ++ "'") l) ++ "]".

(** [int(s)] on a string: white space around the numeral is ignored, one
    sign is allowed, and at least one decimal digit must follow.  [None]
    stands for [ValueError]. *)
Definition digits (s : string) : option Z :=
  match s with
  | EmptyString => None
  | _ => option_map Z.of_uint (NilEmpty.uint_of_string s)
  end.

Definition int (s : string) : option Z :=
  match strip is_space s with
  | String "-" d => option_map Z.opp (digits d)
  | String "+" d => digits d
  | d => digits d
  end.

End Py.

(** Arguments of [join_key]: strings or integers, turned into text by
    [str()]. *)
Inductive segment : Type :=
| SegStr (s : string)
| SegInt (z : Z).

Definition str (a : segment) : string :=
  match a with
  | SegStr s => s
  | SegInt z => Py.str_int z
  end.

(** ** [join_key] *)

(** One turn of the loop of [join_key]. *)
Definition join_step (key : string) (arg : segment) : string :=
  let arg_stripped := Py.strip Py.is_slash (str arg) in
  if Py.truthy arg_stripped then key ++ (arg_stripped ++ "/") else key.

Definition join_key (args : list segment) : string :=
  let key := fold_left join_step args "/" in
  if (1 <? String.length key)%nat then Py.drop_last key else key.

(** The path the specification describes: a slash, then the segments that
    are non-empty once stripped, separated by slashes. *)
Definition join_segments (args : list segment) : list string :=
  filter Py.truthy (map (fun a => Py.strip Py.is_slash (str a)) args).

Definition join_spec (args : list segment) : string :=
  "/" ++ String.concat "/" (join_segments args).


(** ** Exceptions, results and generators *)

(** The [assert] statements of the module, by what they demand. *)
Inductive assertion : Type :=
| first_element_is_building (got : string)
| third_element_is_meter
| building_is_int
| building_at_least_1
| meter_at_least_1
| storer_is_not_None (key : string).

(** The two calls of [int()] in [Key.__init__]. *)
Inductive conversion : Type :=
| building_number
| meter_number.

Inductive exn : Type :=
| IndexError
| KeyError (msg : string)
| TypeError (msg : string)
| StopIteration
| MemoryError (mbytes : Q)
| AssertionError (a : assertion)
| ValueError (c : conversion).

(** What a call comes to: a value, an exception, or no answer at all (an
    iterator of the storage engine that loops without yielding). *)
Inductive result (A : Type) : Type :=
| Ok (a : A)
| Raise (e : exn)
| Diverge.

Arguments Ok {A} a.
Arguments Raise {A} e.
Arguments Diverge {A}.

Definition bind {A B : Type} (r : result A) (k : A -> result B) : result B :=
  match r with
  | Ok a => k a
  | Raise e => Raise e
  | Diverge => Diverge
  end.

Notation "x <- r ;; k" := (bind r (fun x => k))
  (at level 61, r at next level, right associativity).
Notation "r ;;; k" := (bind r (fun _ => k))
  (at level 61, right associativity).

(** The trace of a generator: the values it yields, in order, and how it
    ends. *)
Inductive gen (A : Type) : Type :=
| Stop
| Yield (a : A) (rest : gen A)
| Throw (e : exn)
| Hang.

Arguments Stop {A}.
Arguments Yield {A} a rest.
Arguments Throw {A} e.
Arguments Hang {A}.

(** The values a generator yields before it ends. *)
Fixpoint yielded {A : Type} (g : gen A) : list A :=
  match g with
  | Yield a rest => a :: yielded rest
  | _ => []
  end.

(** The generator never comes to an end. *)
Fixpoint hangs {A : Type} (g : gen A) : bool :=
  match g with
  | Yield _ rest => hangs rest
  | Hang => true
  | _ => false
  end.

(** Running [g] and then [k], as two loops in sequence do. *)
Fixpoint gen_then {A : Type} (g k : gen A) : gen A :=
  match g with
  | Stop => k
  | Yield a rest => Yield a (gen_then rest k)
  | Throw e => Throw e
  | Hang => Hang
  end.

(** [next(it)]. *)
Definition next {A : Type} (g : gen A) : result A :=
  match g with
  | Yield a _ => Ok a
  | Stop => Raise StopIteration
  | Throw e => Raise e
  | Hang => Diverge
  end.

(** ** Time frames *)

Module TimeFrame.

(** Modelled from the spec: the class [TimeFrame] of [nilmtk/timeframe.py]
    is imported by the data store and is not among its sources.  A time
    frame is a half-open interval of the time axis, possibly unbounded on
    either side, or empty.  [empty] is the attribute [load] tests on an
    intersection.  [TimeFrame()] is what [load] takes as its single
    unbounded period when none is given and what a new [DataStore] takes
    as its window, so it bounds nothing and is not flagged empty: were it,
    every read through a fresh store would stop at the test of [empty]. *)
Record t : Type := make {
  start : option Z;
  end_ : option Z;
  empty : bool
}.

(** [TimeFrame(start, end)]. *)
Definition new (s e : option Z) : t := make s e false.

(** [TimeFrame()]. *)
Definition default : t := new None None.

(** A frame without any instant. *)
Definition nothing : t := make None None true.

Definition latest (a b : option Z) : option Z :=
  match a, b with
  | Some x, Some y => Some (Z.max x y)
  | Some x, None => Some x
  | None, _ => b
  end.

Definition earliest (a b : option Z) : option Z :=
  match a, b with
  | Some x, Some y => Some (Z.min x y)
  | Some x, None => Some x
  | None, _ => b
  end.

(** Modelled from the spec: [a.intersect(b)], the instants of both; the
    result is flagged empty when there is none. *)
Definition intersect (a b : t) : t :=
  if (empty a || empty b)%bool then nothing
  else
    let s := latest (start a) (start b) in
    let e := earliest (end_ a) (end_ b) in
    match s, e with
    | Some s', Some e' => if e' <=? s' then nothing else new s e
    | _, _ => new s e
    end.

(** Modelled from the spec: [tf.query_terms(name)], as the predicate on
    a row index that the terms ["index>=name.start"] and
    ["index<name.end"] denote. *)
Definition query_terms (tf : t) (i : Z) : bool :=
  (match start tf with Some s => s <=? i | None => true end
   && match end_ tf with Some e => i <? e | None => true end)%bool.

(** The instant [i] lies in the frame. *)
Definition contains (tf : t) (i : Z) : bool :=
  (negb (empty tf) && query_terms tf i)%bool.

End TimeFrame.

(** ** The storage engine *)

(** A row of a table: its index (a time stamp) and its cells by column
    name. *)
Record Row : Type := mkRow {
  index : Z;
  cells : list (string * Z)
}.

(** A stored table: its column names and its rows in the order they lie on
    disk. *)
Record Table : Type := mkTable {
  column_names : list string;
  table_rows : list Row
}.

(** How the iterator behind a [select] with a [chunksize] cuts what is
    selected into groups is the affair of pandas, and its versions differ:
    - [by_rows]: the rows of the table are read in steps of [chunksize] and
      the [where] is applied to every step; a step that selects no row is
      passed over;
    - [by_coordinates]: the rows the [where] selects are located first and
      handed on in groups of [chunksize], as long as the position is below
      the number of rows of the table. *)
Inductive walk : Type :=
| by_rows
| by_coordinates.

(** The iterator of the pandas at hand: how it walks a table, and what a
    read gives that finds no row at all: one frame without rows, as the
    docstring of [load] has it ("Returns an empty DataFrame if no data is
    available for the specified period"), or nothing. *)
Record iteration : Type := mkIteration {
  walks : walk;
  empty_when_no_data : bool
}.

(** [pd.HDFStore]: the tables by key, whether the file is held open, and
    the iterator of the pandas at hand. *)
Record HDFStore : Type := mkHDFStore {
  tables : list (string * Table);
  is_open : bool;
  iterates : iteration
}.

(** The calls the data store makes on pandas' [HDFStore], the storage
    engine it sits on.  A table is read in the order it lies on disk and
    with all its columns: [load] hands its columns over under the keyword
    [cols], which is no column filter of [select]. *)
Module pd.

(** [store.keys()]. *)
Definition keys (h : HDFStore) : list string := map fst (tables h).

(** [store.get_storer(key)] for a key as [store.keys()] lists it. *)
Fixpoint lookup (ts : list (string * Table)) (key : string) : option Table :=
  match ts with
  | [] => None
  | (k, t) :: ts' => if String.eqb k key then Some t else lookup ts' key
  end.

Definition get_storer (h : HDFStore) (key : string) : option Table :=
  lookup (tables h) key.

(** [store.close()]. *)
Definition close (h : HDFStore) : HDFStore :=
  mkHDFStore (tables h) false (iterates h).

(** The names along a path of the file: slashes separate them, and a
    slash too many, at the end or within, names nothing. *)
Definition path (key : string) : list string :=
  filter Py.truthy (Py.split_slash key).

Fixpoint is_prefix (p q : list string) : bool :=
  match p, q with
  | [], _ => true
  | a :: p', b :: q' => (String.eqb a b && is_prefix p' q')%bool
  | _ :: _, [] => false
  end.

(** What lies at a path of the file: a table, a group above some table,
    a name inside the group of a table, where pandas keeps what the table
    is made of, or nothing. *)
Inductive node : Type :=
| no_node
| group_node
| inner_node
| table_node (t : Table).

Fixpoint find_table (ts : list (string * Table)) (p : list string)
  : option Table :=
  match ts with
  | [] => None
  | (k, t) :: ts' =>
      if list_eq_dec string_dec (path k) p then Some t else find_table ts' p
  end.

(** [store.get_node(key)]. *)
Definition get_node (h : HDFStore) (key : string) : node :=
  let p := path key in
  match find_table (tables h) p with
  | Some t => table_node t
  | None =>
      match p with
      | [] => group_node
      | _ :: _ =>
          if existsb (fun kt => is_prefix p (path (fst kt))) (tables h)
          then group_node
          else if existsb (fun kt => is_prefix (path (fst kt)) p) (tables h)
          then inner_node
          else no_node
      end
  end.

(** The table a [select] reads: [KeyError] where the file has nothing,
    [TypeError] for a group, which is no stored object.  Inside the group
    of a table the file is taken to hold no object by the name asked
    for. *)
Definition open_table (h : HDFStore) (key : string) : result Table :=
  match get_node h key with
  | table_node t => Ok t
  | group_node =>
      Raise (TypeError ("cannot create a storer if the object is not"
                        ++ " existing nor a value are passed"))
  | inner_node | no_node =>
      Raise (KeyError ("No object named " ++ key ++ " in the file"))
  end.

(** The iterator that reads the table in steps of [chunksize] rows and
    applies the terms to each step.  [rs] are the rows still to be read.
    With [fuel] at least their number it comes to an end whenever
    [chunksize] is positive; with a [chunksize] of 0 it does not advance,
    and the trace is cut with [Hang] where the fuel ends. *)
Fixpoint iterate_rows (fuel : nat) (chunksize : nat) (terms : Z -> bool)
    (rs : list Row) : gen (list Row) :=
  match rs with
  | [] => Stop
  | _ :: _ =>
      match fuel with
      | O => Hang
      | S fuel' =>
          let value :=
            filter (fun r => terms (index r)) (firstn chunksize rs) in
          let rest := iterate_rows fuel' chunksize terms (skipn chunksize rs) in
          match value with
          | [] => rest
          | _ :: _ => Yield value rest
          end
      end
  end.

(** The iterator that hands on the located rows [coordinates] in steps of
    [chunksize], as long as the position is below the number of rows of
    the table; [remaining] is what is left of that number. *)
Fixpoint iterate_coordinates (fuel chunksize remaining : nat)
    (coordinates : list Row) : gen (list Row) :=
  match remaining with
  | O => Stop
  | S _ =>
      match fuel with
      | O => Hang
      | S fuel' =>
          let value := firstn (Nat.min chunksize remaining) coordinates in
          let rest :=
            iterate_coordinates fuel' chunksize (remaining - chunksize)
              (skipn chunksize coordinates) in
          match value with
          | [] => rest
          | _ :: _ => Yield value rest
          end
      end
  end.

(** The groups of rows of [rs] that the terms accept, in steps of
    [chunksize]. *)
Definition walk_table (w : walk) (chunksize : nat) (terms : Z -> bool)
    (rs : list Row) : gen (list Row) :=
  match w with
  | by_rows => iterate_rows (List.length rs) chunksize terms rs
  | by_coordinates =>
      iterate_coordinates (List.length rs) chunksize (List.length rs)
        (filter (fun r => terms (index r)) rs)
  end.

(** The iterator of a [select] with a [chunksize] over the rows [rs] and
    with the terms of its [where]. *)
Definition TableIterator (how : iteration) (chunksize : nat)
    (terms : Z -> bool) (rs : list Row) : gen (list Row) :=
  match walk_table (walks how) chunksize terms rs with
  | Stop => if empty_when_no_data how then Yield [] Stop else Stop
  | groups => groups
  end.

Definition of_table (r : result Table) (k : Table -> gen (list Row))
  : gen (list Row) :=
  match r with
  | Ok t => k t
  | Raise e => Throw e
  | Diverge => Hang
  end.

(** [store.select(key=key, cols=cols, where=terms, chunksize=chunksize)]:
    the rows whose index satisfies [terms], in the order of the table. *)
Definition select_where (h : HDFStore) (key : string)
    (cols : option (list string)) (terms : Z -> bool) (chunksize : nat)
  : gen (list Row) :=
  of_table (open_table h key)
    (fun t => TableIterator (iterates h) chunksize terms (table_rows t)).

(** The positions, counted from [pos], of the rows whose index satisfies
    [terms]. *)
Fixpoint coordinates (terms : Z -> bool) (pos : nat) (rs : list Row)
  : list nat :=
  match rs with
  | [] => []
  | r :: rs' =>
      if terms (index r) then pos :: coordinates terms (S pos) rs'
      else coordinates terms (S pos) rs'
  end.

(** [store.select_as_coordinates(key=key, where=terms)]. *)
Definition select_as_coordinates (h : HDFStore) (key : string)
    (terms : Z -> bool) : result (list nat) :=
  t <- open_table h key ;;
  Ok (coordinates terms O (table_rows t)).

(** [store.select(key=key, chunksize=chunksize, cols=cols, start=start)]:
    the rows from position [start] on. *)
Definition select_start (h : HDFStore) (key : string)
    (cols : option (list string)) (start chunksize : nat)
  : gen (list Row) :=
  of_table (open_table h key)
    (fun t => TableIterator (iterates h) chunksize (fun _ => true)
                (skipn start (table_rows t))).

End pd.

(** ** [HDFDataStore] *)

Definition MAX_MEM_ALLOWANCE_IN_BYTES : Z := 1000000000.

Record HDFDataStore : Type := mkHDFDataStore {
  store : HDFStore;
  window : TimeFrame.t
}.


(** What [load] yields: a data frame with its two extra attributes. *)
Record DataFrame : Type := mkDataFrame {
  rows : list Row;
  look_ahead : list Row;
  timeframe : TimeFrame.t
}.

(** [pd.DataFrame()]. *)
Definition no_rows : list Row := [].

(** [data.index[-1]], for a frame with at least one row. *)
Definition last_index (data : list Row) : Z := index (last data (mkRow 0 [])).

(** The key with a slash at the front but not at the end. *)
Definition normalise_key (key : string) : result string :=
  match key with
  | EmptyString => Raise IndexError
  | String c _ =>
      let key := if negb (Ascii.eqb c "/") then "/" ++ key else key in
      let key :=
        if ((1 <? String.length key)%nat
            && match Py.last_char key with
               | Some d => Ascii.eqb d "/"
               | None => false
               end)%bool
        then Py.drop_last key else key in
      Ok key
  end.

(** The look-ahead of one group of rows. *)
Definition load_look_ahead (self : HDFDataStore) (key : string)
    (cols : option (list string)) (n_look_ahead_rows : nat)
    (data : list Row) : result (list Row) :=
  look_ahead_coords <-
    (if (0 <? List.length data)%nat
     then pd.select_as_coordinates (store self) key
            (fun i => last_index data <? i)
     else Ok []) ;;
  match look_ahead_coords with
  | look_ahead_start :: _ =>
      next (pd.select_start (store self) key cols look_ahead_start
              n_look_ahead_rows)
  | [] => Ok no_rows
  end.

(** The time frame of one group of rows. *)
Definition set_timeframe (data : list Row) : TimeFrame.t :=
  match data with
  | first :: _ => TimeFrame.new (Some (index first)) (Some (last_index data))
  | [] => TimeFrame.default
  end.

(** The loop over the groups of one period; [k] is what the following
    periods yield. *)
Fixpoint for_data (self : HDFDataStore) (key : string)
    (cols : option (list string)) (n_look_ahead_rows : nat)
    (generator : gen (list Row)) (k : gen DataFrame) : gen DataFrame :=
  match generator with
  | Stop => k
  | Yield data rest =>
      match load_look_ahead self key cols n_look_ahead_rows data with
      | Ok la =>
          Yield (mkDataFrame data la (set_timeframe data))
                (for_data self key cols n_look_ahead_rows rest k)
      | Raise e => Throw e
      | Diverge => Hang
      end
  | Throw e => Throw e
  | Hang => Hang
  end.

(** The groups of one period. *)
Definition period_generator (self : HDFDataStore) (key : string)
    (cols : option (list string)) (chunksize : nat) (period : TimeFrame.t)
  : gen (list Row) :=
  let window_intersect := TimeFrame.intersect (window self) period in
  if TimeFrame.empty window_intersect
  then Yield no_rows Stop
  else pd.select_where (store self) key cols
         (TimeFrame.query_terms window_intersect) chunksize.

(** The loop over the periods. *)
Fixpoint for_period (self : HDFDataStore) (key : string)
    (cols : option (list string)) (periods : list TimeFrame.t)
    (n_look_ahead_rows chunksize : nat) : gen DataFrame :=
  match periods with
  | [] => Stop
  | period :: periods' =>
      for_data self key cols n_look_ahead_rows
        (period_generator self key cols chunksize period)
        (for_period self key cols periods' n_look_ahead_rows chunksize)
  end.

Definition load (self : HDFDataStore) (key : string)
    (cols : option (list string)) (periods : option (list TimeFrame.t))
    (n_look_ahead_rows chunksize : nat) : gen DataFrame :=
  match normalise_key key with
  | Ok key =>
      let periods :=
        match periods with
        | None => [TimeFrame.default]
        | Some ps => ps
        end in
      for_period self key cols periods n_look_ahead_rows chunksize
  | Raise e => Throw e
  | Diverge => Hang
  end.

Definition close (self : HDFDataStore) : HDFDataStore :=
  mkHDFDataStore (pd.close (store self)) (window self).

Definition open (self : HDFDataStore) : HDFDataStore :=
  mkHDFDataStore (pd.close (store self)) (window self).

Definition _keys (self : HDFDataStore) : list string := pd.keys (store self).

Definition _check_key (self : HDFDataStore) (key : string) : result unit :=
  if existsb (String.eqb key) (_keys self) then Ok tt
  else Raise (KeyError (key ++ " not in store")).

Definition _get_storer (self : HDFDataStore) (key : string) : result Table :=
  _check_key self key ;;;
  match pd.get_storer (store self) key with
  | Some storer => Ok storer
  | None => Raise (AssertionError (storer_is_not_None key))
  end.

Definition _column_names (self : HDFDataStore) (key : string)
  : result (list string) :=
  _check_key self key ;;;
  storer <- _get_storer self key ;;
  Ok (column_names storer).

Definition _table_has_column_names (self : HDFDataStore) (key : string)
    (cols : list string) : result bool :=
  _check_key self key ;;;
  names <- _column_names self key ;;
  let table_cols := (names ++ ["index"])%list in
  Ok (forallb (fun c => existsb (String.eqb c) table_cols) cols).

Definition _check_columns (self : HDFDataStore) (key : string)
    (columns : option (list string)) : result unit :=
  match columns with
  | None => Ok tt
  | Some cs =>
      has <- _table_has_column_names self key cs ;;
      if negb has
      then Raise (KeyError ("at least one of " ++ Py.str_list cs
                            ++ " is not a valid column"))
      else Ok tt
  end.

Definition BYTES_PER_ELEMENT : Z := 4.
Definition BYTES_PER_TIMESTAMP : Z := 8.

Definition _estimate_memory_requirement (self : HDFDataStore) (key : string)
    (nrows : Z) (cols : option (list string)) (paranoid : bool) : result Z :=
  (if paranoid then _check_key self key else Ok tt) ;;;
  cols <-
    match cols with
    | None => _column_names self key
    | Some cs =>
        (if paranoid then _check_columns self key (Some cs) else Ok tt) ;;;
        Ok cs
    end ;;
  let ncols := Z.of_nat (List.length cols) in
  let est_mem_usage_for_data := nrows * ncols * BYTES_PER_ELEMENT in
  let est_mem_usage_for_index := nrows * BYTES_PER_TIMESTAMP in
  if list_eq_dec string_dec cols ["index"]
  then Ok est_mem_usage_for_index
  else Ok (est_mem_usage_for_data + est_mem_usage_for_index).

(** [mem_requirement / 1E6], the number the error message prints. *)
Definition mbytes (mem_requirement : Z) : Q := Qmake mem_requirement 1000000.

Definition _check_data_will_fit_in_memory (self : HDFDataStore)
    (key : string) (nrows : Z) (cols : option (list string)) : result unit :=
  mem_requirement <- _estimate_memory_requirement self key nrows cols false ;;
  if MAX_MEM_ALLOWANCE_IN_BYTES <? mem_requirement
  then Raise (MemoryError (mbytes mem_requirement))
  else Ok tt.

(** ** [Key] *)

Record Key : Type := mkKey {
  utility : option string;
  building : option Z;
  meter : option Z
}.

Definition _check (self : Key) : result unit :=
  match building self with
  | None => Raise (AssertionError building_is_int)
  | Some b =>
      if 1 <=? b then
        match meter self with
        | None => Ok tt
        | Some m =>
            if 1 <=? m then Ok tt
            else Raise (AssertionError meter_at_least_1)
        end
      else Raise (AssertionError building_at_least_1)
  end.

(** [Key(string, building, meter)]. *)
Definition Key__init__ (string_ : option string) (building_ meter_ : option Z)
  : result Key :=
  self <-
    match string_ with
    | None => Ok (mkKey None building_ meter_)
    | Some s =>
        let split := Py.split_slash (Py.strip Py.is_slash s) in
        if negb (Py.startswith (nth 0 split "") "building")
        then Raise (AssertionError (first_element_is_building (nth 0 split "")))
        else
          match Py.int (Py.remove_all "building" (nth 0 split "")) with
          | None => Raise (ValueError building_number)
          | Some b =>
              let utility_ :=
                if (1 <? List.length split)%nat
                then Some (nth 1 split "") else None in
              if (List.length split =? 3)%nat then
                if negb (Py.startswith (nth 2 split "") "meter")
                then Raise (AssertionError third_element_is_meter)
                else
                  match Py.int (Py.remove_all "meter" (last split "")) with
                  | None => Raise (ValueError meter_number)
                  | Some m => Ok (mkKey utility_ (Some b) (Some m))
                  end
              else Ok (mkKey utility_ (Some b) None)
          end
    end ;;
  _check self ;;;
  Ok self.

(** [Key(string)]: the parse of a key. *)
Definition parse (s : string) : result Key := Key__init__ (Some s) None None.

Definition __repr__ (self : Key) : result string :=
  _check self ;;;
  match building self with
  | None => Raise (AssertionError building_is_int)
  | Some b =>
      let s := "/building" ++ Py.str_int b in
      match meter self with
      | Some m => Ok (s ++ ("/elec/meter" ++ Py.str_int m))
      | None => Ok s
      end
  end.

(** The two kinds of failure the specification tells apart for a key: a
    malformed string (its format error) and an identifier out of range
    (its validation error). *)
Definition format_error (e : exn) : bool :=
  match e with
  | AssertionError (first_element_is_building _) => true
  | AssertionError third_element_is_meter => true
  | ValueError _ => true
  | _ => false
  end.

Definition validation_error (e : exn) : bool :=
  match e with
  | AssertionError building_at_least_1 => true
  | AssertionError meter_at_least_1 => true
  | _ => false
  end.

(** ** Notions used to state the properties *)

(** The key as the loop of [join_key] builds it: every kept segment
    followed by a slash. *)
Fixpoint trailing (segs : list string) : string :=
  match segs with
  | [] => ""
  | s :: segs' => s ++ ("/" ++ trailing segs')
  end.

(** Every character of [s] satisfies [p]. *)
Fixpoint all_chars (p : ascii -> bool) (s : string) : bool :=
  match s with
  | EmptyString => true
  | String c s' => (p c && all_chars p s')%bool
  end.

Definition no_slash (s : string) : bool :=
  all_chars (fun c => negb (Py.is_slash c)) s.

(** [s[len(token):]]: what follows a leading [token] in [s]. *)
Definition after (token s : string) : string :=
  String.substring (String.length token)
    (String.length s - String.length token) s.

(** The first segment of a key string, [split[0]] in [Key.__init__]. *)
Definition first_segment (s : string) : string :=
  nth 0 (Py.split_slash (Py.strip Py.is_slash s)) "".

(** The least and the greatest index of a group of rows, [None] for no
    row. *)
Definition min_index (data : list Row) : option Z :=
  match data with
  | [] => None
  | r :: rs => Some (fold_right Z.min (index r) (map index rs))
  end.

Definition max_index (data : list Row) : option Z :=
  match data with
  | [] => None
  | r :: rs => Some (fold_right Z.max (index r) (map index rs))
  end.

(** Every table of the store lies on disk in the order of its index, as
    the storage engine is expected to deliver it. *)
Definition index_le (a b : Row) : Prop := index a <= index b.

Definition index_ordered (self : HDFDataStore) : Prop :=
  forall key t, pd.get_storer (store self) key = Some t ->
    StronglySorted index_le (table_rows t).

(** The frame [load] yields for a period outside the window. *)
Definition empty_frame : DataFrame := mkDataFrame no_rows no_rows TimeFrame.default.

(** Where a frame yielded by [load] comes from: a group of one of the
    periods and the look-ahead read for that group. *)
Definition made_from (self : HDFDataStore) (key : string)
    (cols : option (list string)) (n_look_ahead_rows chunksize : nat)
    (periods : list TimeFrame.t) (c : DataFrame) : Prop :=
  exists period data la,
    In period periods
    /\ In data (yielded (period_generator self key cols chunksize period))
    /\ load_look_ahead self key cols n_look_ahead_rows data = Ok la
    /\ c = mkDataFrame data la (set_timeframe data).

(** A decimal digit. *)
Definition is_digit (c : ascii) : bool :=
  let n := nat_of_ascii c in (Nat.leb 48 n && Nat.leb n 57)%bool.

(** The generator that yields the values of [l] and goes on as [k]. *)
Definition yield_all {A : Type} (l : list A) (k : gen A) : gen A :=
  fold_right Yield k l.



(** The period misses the window of [self]. *)
Definition outside (self : HDFDataStore) (period : TimeFrame.t) : bool :=
  TimeFrame.empty (TimeFrame.intersect (window self) period).

(** A store to try the reader on: one table of five rows. *)
Definition sample_row (i : Z) : Row := mkRow i [("power", 10 * i)].

Definition sample_table : Table :=
  mkTable ["power"] (map sample_row [1; 2; 3; 4; 5]).

Definition sample_store (w : TimeFrame.t) : HDFDataStore :=
  mkHDFDataStore
    (mkHDFStore [("/building1/elec/meter1", sample_table)] true
       (mkIteration by_coordinates false)) w.

(** A store whose table repeats a time stamp. *)
Definition repeated_table : Table :=
  mkTable ["power"] (map sample_row [1; 2; 2; 3]).

Definition repeated_store (how : iteration) : HDFDataStore :=
  mkHDFDataStore (mkHDFStore [("/building1/elec/meter1", repeated_table)]
                    true how) TimeFrame.default.

(** The look-ahead [la] lies on disk right behind the rows [data] of table
    [t]: its first row is the row that follows the last of [data]. *)
Definition follows_on_disk (t : Table) (data la : list Row) : Prop :=
  exists before after,
    table_rows t = (before ++ data ++ after)%list
    /\ forall r la', la = r :: la' -> exists after', after = r :: after'.




(** * Properties *)

(** Comparisons on [Z] computed to a boolean, read as propositions. *)
Ltac bool_prop :=
  repeat match goal with
         | H : (_ && _)%bool = true |- _ => apply andb_prop in H; destruct H
         | H : (_ <=? _) = true |- _ => apply Z.leb_le in H
         | H : (_ <=? _) = false |- _ => apply Z.leb_gt in H
         | H : (_ <? _) = true |- _ => apply Z.ltb_lt in H
         | H : (_ <? _) = false |- _ => apply Z.ltb_ge in H
         end.

Create HintDb order.

(** ** Strings *)

Section StringFacts.

Lemma append_assoc (a b c : string) : ((a ++ b) ++ c = a ++ (b ++ c))%string.
Proof. induction a as [|x a IH]; simpl; [reflexivity | now rewrite IH]. Qed.

Lemma append_empty_r (a : string) : (a ++ "")%string = a.
Proof. induction a as [|x a IH]; simpl; [reflexivity | now rewrite IH]. Qed.

Lemma length_append (a b : string) :
  String.length (a ++ b) = (String.length a + String.length b)%nat.
Proof. induction a as [|x a IH]; simpl; [reflexivity | now rewrite IH]. Qed.

Lemma truthy_length (s : string) :
  Py.truthy s = true -> (0 < String.length s)%nat.
Proof. destruct s; simpl; [discriminate | lia]. Qed.

Lemma drop_last_snoc (s : string) (c : ascii) :
  Py.drop_last (s ++ String c "") = s.
Proof.
  induction s as [|x s IH]; simpl; [reflexivity|].
  rewrite IH. destruct s; reflexivity.
Qed.

Lemma last_char_append (a b : string) :
  Py.truthy b = true -> Py.last_char (a ++ b) = Py.last_char b.
Proof.
  intros Hb. induction a as [|x a IH]; simpl; [reflexivity|].
  rewrite IH. destruct (a ++ b)%string eqn:E; [|reflexivity].
  destruct a, b; simpl in *; discriminate.
Qed.

(** What [rstrip] leaves does not end in a stripped character. *)
Lemma rstrip_last (p : ascii -> bool) (s : string) (c : ascii) :
  Py.last_char (Py.rstrip p s) = Some c -> p c = false.
Proof.
  induction s as [|x s IH]; simpl; [discriminate|].
  destruct (Py.rstrip p s) as [|y r] eqn:E.
  - destruct (p x) eqn:Px; simpl; [discriminate|].
    intros [= <-]. exact Px.
  - intros H. apply IH. exact H.
Qed.

Lemma strip_last (p : ascii -> bool) (s : string) (c : ascii) :
  Py.last_char (Py.strip p s) = Some c -> p c = false.
Proof. apply rstrip_last. Qed.

End StringFacts.

(** ** [join_key] *)

Section JoinKey.

Lemma fold_join_step (args : list segment) (key : string) :
  fold_left join_step args key = (key ++ trailing (join_segments args))%string.
Proof.
  revert key. induction args as [|a args IH]; intros key; simpl.
  - now rewrite append_empty_r.
  - rewrite IH. unfold join_step, join_segments. simpl.
    destruct (Py.truthy (Py.strip Py.is_slash (str a))); simpl.
    + now rewrite !append_assoc.
    + reflexivity.
Qed.

Lemma trailing_concat (s : string) (segs : list string) :
  trailing (s :: segs) = (String.concat "/" (s :: segs) ++ "/")%string.
Proof.
  revert s. induction segs as [|t segs IH]; intros s.
  - reflexivity.
  - change (trailing (s :: t :: segs))
      with (s ++ ("/" ++ trailing (t :: segs)))%string.
    rewrite IH.
    change (String.concat "/" (s :: t :: segs))
      with (s ++ ("/" ++ String.concat "/" (t :: segs)))%string.
    now rewrite !append_assoc.
Qed.

Lemma join_key_refines (args : list segment) : join_key args = join_spec args.
Proof.
  unfold join_key, join_spec. rewrite fold_join_step.
  destruct (join_segments args) as [|s segs] eqn:E.
  - reflexivity.
  - rewrite trailing_concat.
    assert (Hs : Py.truthy s = true).
    { assert (Hin : In s (join_segments args)) by (rewrite E; now left).
      unfold join_segments in Hin. apply filter_In in Hin. tauto. }
    assert (Hlen : (1 <? String.length ("/" ++ (String.concat "/" (s :: segs) ++ "/")))%nat = true).
    { apply Nat.ltb_lt. simpl String.length. rewrite length_append. simpl. lia. }
    rewrite Hlen.
    rewrite <- append_assoc. now rewrite drop_last_snoc.
Qed.

Lemma last_cons {A : Type} (l : list A) (x d : A) :
  last (x :: l) d = last l x.
Proof.
  revert x d. induction l as [|y l IH]; intros x d; [reflexivity|].
  change (last (x :: y :: l) d) with (last (y :: l) d).
  now rewrite !IH.
Qed.

Lemma last_char_concat (s : string) (segs : list string) :
  Forall (fun x => Py.truthy x = true) (s :: segs) ->
  Py.last_char (String.concat "/" (s :: segs)) = Py.last_char (last segs s).
Proof.
  revert s. induction segs as [|t segs IH]; intros s H.
  - reflexivity.
  - change (String.concat "/" (s :: t :: segs))
      with (s ++ ("/" ++ String.concat "/" (t :: segs)))%string.
    inversion H as [|? ? _ Ht]; subst.
    assert (Hc : Py.truthy (String.concat "/" (t :: segs)) = true).
    { inversion Ht as [|? ? Ht1 _]; subst.
      destruct segs; simpl; [exact Ht1|].
      destruct t; [discriminate | reflexivity]. }
    rewrite last_char_append by reflexivity.
    rewrite (last_char_append "/") by exact Hc.
    rewrite IH by exact Ht.
    now rewrite (last_cons segs t s).
Qed.

Lemma join_key_no_trailing_slash (args : list segment) :
  join_key args = "/" \/ Py.last_char (join_key args) <> Some "/"%char.
Proof.
  rewrite join_key_refines. unfold join_spec.
  destruct (join_segments args) as [|s segs] eqn:E; [now left | right].
  assert (Hall : Forall (fun x => Py.truthy x = true
                                  /\ exists a, x = Py.strip Py.is_slash (str a))
                        (s :: segs)).
  { rewrite <- E. apply Forall_forall. intros x Hx.
    unfold join_segments in Hx. apply filter_In in Hx. destruct Hx as [Hx Ht].
    apply in_map_iff in Hx. destruct Hx as (a & <- & _). eauto. }
  assert (Htr : Forall (fun x => Py.truthy x = true) (s :: segs)).
  { eapply Forall_impl; [|exact Hall]. simpl. tauto. }
  assert (Hc : Py.truthy (String.concat "/" (s :: segs)) = true).
  { inversion Htr as [|? ? Hs _]; subst.
    destruct segs; simpl; [exact Hs|]. destruct s; [discriminate|reflexivity]. }
  rewrite last_char_append by exact Hc.
  rewrite last_char_concat by exact Htr.
  assert (Hl : In (last segs s) (s :: segs)).
  { clear. revert s. induction segs as [|t segs IH]; intros s; [now left|].
    right. rewrite (last_cons segs t s). apply IH. }
  rewrite Forall_forall in Hall. destruct (Hall _ Hl) as (_ & a & Ha).
  intros Hlast. rewrite Ha in Hlast. apply strip_last in Hlast. discriminate.
Qed.

End JoinKey.

(** C8: [join_key] returns a slash followed by the segments that are
    non-empty once turned into text and stripped of slashes at both ends,
    separated by slashes; the result has no trailing slash; without any
    such segment it is the single slash; and the four documented calls
    give ["/building1/elec/meter1"], ["/"], ["/"] and ["/"]. *)
Theorem join_key_canonical :
  forall args : list segment,
    join_key args = join_spec args
    /\ (join_key args = "/" \/ Py.last_char (join_key args) <> Some "/"%char)
    /\ (join_segments args = [] -> join_key args = "/")
    /\ join_key [SegStr "building1"; SegStr "elec"; SegStr "meter1"]
       = "/building1/elec/meter1"
    /\ join_key [SegStr "/"] = "/"
    /\ join_key [SegStr ""] = "/"
    /\ join_key [] = "/".
Proof.
  intros args. split; [apply join_key_refines|].
  split; [apply join_key_no_trailing_slash|].
  split; [|repeat split; reflexivity].
  intros E. rewrite join_key_refines. unfold join_spec. now rewrite E.
Qed.

Lemma join_key_canonical_witness :
  join_key [SegStr "//"; SegStr ""; SegStr "/"] = "/".
Proof.
  apply (proj1 (proj2 (proj2 (join_key_canonical
           [SegStr "//"; SegStr ""; SegStr "/"])))).
  reflexivity.
Defined.

(** ** The handle *)

(** C5: [open] does not reopen the store: it closes the underlying handle,
    and leaves the data store in the very state [close] leaves it in. *)
Theorem open_closes_the_store :
  forall self : HDFDataStore,
    open self = close self
    /\ is_open (store (open self)) = false
    /\ tables (store (open self)) = tables (store self)
    /\ window (open self) = window self.
Proof. intros self. repeat split. Qed.

(** ** The memory guard *)

(** C7: for given columns the estimate is [nrows * ncols * 4 + nrows * 8]
    bytes, and [nrows * 8] alone when the columns are exactly ["index"];
    1000 rows of two columns take 16000 bytes and 1000 rows of the index
    8000. *)
Theorem estimate_memory_requirement_formula :
  forall (self : HDFDataStore) (key : string) (nrows : Z) (cols : list string),
    _estimate_memory_requirement self key nrows (Some cols) false
    = Ok (if list_eq_dec string_dec cols ["index"]
          then nrows * 8
          else nrows * Z.of_nat (List.length cols) * 4 + nrows * 8)
    /\ _estimate_memory_requirement self key 1000 (Some ["a"; "b"]) false
       = Ok 16000
    /\ _estimate_memory_requirement self key 1000 (Some ["index"]) false
       = Ok 8000.
Proof.
  intros self key nrows cols. split; [|split; reflexivity].
  unfold _estimate_memory_requirement. simpl.
  destruct (list_eq_dec string_dec cols ["index"]); reflexivity.
Qed.

(** C6: [_check_data_will_fit_in_memory] raises [MemoryError], carrying the
    estimate in megabytes, exactly when the estimate is above the allowance
    of 10^9 bytes; at or below the allowance it returns. *)
Theorem check_data_will_fit_in_memory_guard :
  forall (self : HDFDataStore) (key : string) (nrows : Z)
         (cols : option (list string)) (m : Z),
    _estimate_memory_requirement self key nrows cols false = Ok m ->
    MAX_MEM_ALLOWANCE_IN_BYTES = 10 ^ 9
    /\ (mbytes m == inject_Z m / inject_Z (10 ^ 6))%Q
    /\ (MAX_MEM_ALLOWANCE_IN_BYTES < m <->
        _check_data_will_fit_in_memory self key nrows cols
        = Raise (MemoryError (mbytes m)))
    /\ (m <= MAX_MEM_ALLOWANCE_IN_BYTES <->
        _check_data_will_fit_in_memory self key nrows cols = Ok tt).
Proof.
  intros self key nrows cols m E.
  split; [reflexivity|].
  split.
  { unfold mbytes, Qeq, Qdiv, Qmult, Qinv, inject_Z. simpl. lia. }
  unfold _check_data_will_fit_in_memory. rewrite E. simpl.
  destruct (MAX_MEM_ALLOWANCE_IN_BYTES <? m) eqn:L.
  - apply Z.ltb_lt in L. split; split; intros H;
      try reflexivity; try lia; try discriminate.
  - apply Z.ltb_ge in L. split; split; intros H;
      try reflexivity; try lia; try discriminate.
Qed.

Lemma check_data_will_fit_in_memory_guard_witness :
  _check_data_will_fit_in_memory (sample_store TimeFrame.default)
    "/building1/elec/meter1" 125000000 (Some ["index"]) = Ok tt
  /\ _check_data_will_fit_in_memory (sample_store TimeFrame.default)
       "/building1/elec/meter1" 125000001 (Some ["index"])
     = Raise (MemoryError (mbytes 1000000008)).
Proof.
  split.
  - apply (proj1 (proj2 (proj2 (proj2
      (check_data_will_fit_in_memory_guard (sample_store TimeFrame.default)
         "/building1/elec/meter1" 125000000 (Some ["index"]) 1000000000
         eq_refl))))).
    unfold MAX_MEM_ALLOWANCE_IN_BYTES. lia.
  - apply (proj1 (proj1 (proj2 (proj2
      (check_data_will_fit_in_memory_guard (sample_store TimeFrame.default)
         "/building1/elec/meter1" 125000001 (Some ["index"]) 1000000008
         eq_refl))))).
    unfold MAX_MEM_ALLOWANCE_IN_BYTES. lia.
Defined.

(** ** Decimal numerals and slashes *)

Section Numerals.

Lemma all_chars_append (p : ascii -> bool) (a b : string) :
  all_chars p (a ++ b) = (all_chars p a && all_chars p b)%bool.
Proof.
  induction a as [|x a IH]; simpl; [reflexivity|].
  now rewrite IH, andb_assoc.
Qed.

Lemma uint_no_slash (d : uint) : no_slash (NilEmpty.string_of_uint d) = true.
Proof. induction d; simpl; auto. Qed.

Lemma nilzero_no_slash (d : uint) :
  no_slash (NilZero.string_of_uint d) = true.
Proof. destruct d; first [reflexivity | exact (uint_no_slash _)]. Qed.

Lemma str_int_no_slash (z : Z) : no_slash (Py.str_int z) = true.
Proof.
  unfold Py.str_int, NilZero.string_of_int.
  destruct (Z.to_int z) as [d|d]; [apply nilzero_no_slash|].
  change (no_slash (NilZero.string_of_uint d) = true).
  apply nilzero_no_slash.
Qed.

Lemma str_int_truthy (z : Z) : Py.truthy (Py.str_int z) = true.
Proof.
  unfold Py.str_int, NilZero.string_of_int, NilZero.string_of_uint.
  destruct (Z.to_int z) as [d|d]; destruct d; reflexivity.
Qed.

Lemma no_slash_last (s : string) (c : ascii) :
  no_slash s = true -> Py.last_char s = Some c -> Py.is_slash c = false.
Proof.
  induction s as [|x s IH]; simpl; [discriminate|].
  intros H. apply andb_prop in H. destruct H as [Hx Hs].
  destruct s as [|y s'].
  - intros [= <-]. now apply negb_true_iff in Hx.
  - intros L. apply IH; assumption.
Qed.

Lemma last_char_truthy (s : string) :
  Py.truthy s = true -> exists l, Py.last_char s = Some l.
Proof.
  induction s as [|x s IH]; [discriminate|]. intros _.
  destruct s as [|y s']; [now exists x|].
  destruct IH as [l Hl]; [reflexivity|]. now exists l.
Qed.

Lemma rstrip_id (p : ascii -> bool) (s : string) (c : ascii) :
  Py.last_char s = Some c -> p c = false -> Py.rstrip p s = s.
Proof.
  induction s as [|x s IH]; [discriminate|].
  intros L Pc. destruct s as [|y s'].
  - simpl in L. injection L as ->. simpl. now rewrite Pc.
  - change (Py.last_char (String x (String y s')))
      with (Py.last_char (String y s')) in L.
    change (Py.rstrip p (String x (String y s')))
      with (match Py.rstrip p (String y s') with
            | EmptyString => if p x then EmptyString else String x EmptyString
            | r => String x r
            end).
    now rewrite (IH L Pc).
Qed.

Lemma split_no_slash (a : string) :
  no_slash a = true -> Py.split_slash a = [a].
Proof.
  induction a as [|x a IH]; [reflexivity|].
  simpl. intros H. apply andb_prop in H. destruct H as [Hx Ha].
  apply negb_true_iff in Hx. rewrite Hx, (IH Ha). reflexivity.
Qed.

Lemma split_at_slash (a rest : string) :
  no_slash a = true ->
  Py.split_slash (a ++ String "/" rest) = a :: Py.split_slash rest.
Proof.
  induction a as [|x a IH]; [reflexivity|].
  simpl. intros H. apply andb_prop in H. destruct H as [Hx Ha].
  apply negb_true_iff in Hx. rewrite Hx, (IH Ha). reflexivity.
Qed.

End Numerals.

(** ** [Key] *)

Section KeyFacts.

Lemma strip_path (x l : ascii) (body : string) :
  Py.is_slash x = false ->
  Py.last_char (String x body) = Some l ->
  Py.is_slash l = false ->
  Py.strip Py.is_slash (String "/" (String x body)) = String x body.
Proof.
  intros Hx Hl Hs. unfold Py.strip.
  change (Py.lstrip Py.is_slash (String "/" (String x body)))
    with (Py.lstrip Py.is_slash (String x body)).
  simpl Py.lstrip. rewrite Hx. now apply rstrip_id with l.
Qed.

(** The text of a key with a meter, as [__repr__] composes it. *)
Lemma rendered_segments (b m : Z) :
  Py.split_slash
    (Py.strip Py.is_slash
       (("/building" ++ Py.str_int b) ++ ("/elec/meter" ++ Py.str_int m)))
  = ["building" ++ Py.str_int b; "elec"; "meter" ++ Py.str_int m]%string.
Proof.
  pose proof (str_int_no_slash b) as Hb.
  pose proof (str_int_no_slash m) as Hm.
  pose proof (str_int_truthy m) as Tm.
  set (B := Py.str_int b) in *. set (M := Py.str_int m) in *.
  assert (E : (("/building" ++ B) ++ ("/elec/meter" ++ M))%string
              = String "/" (String "b"
                  ((("uilding" ++ B) ++ "/elec/meter") ++ M))).
  { simpl. now rewrite !append_assoc. }
  destruct (last_char_truthy M Tm) as [l L].
  rewrite E, (strip_path "b" l).
  - replace (String "b" ((("uilding" ++ B) ++ "/elec/meter") ++ M))
      with (("building" ++ B) ++ String "/" ("elec" ++ String "/" ("meter" ++ M)))%string
      by (simpl; now rewrite !append_assoc).
    rewrite split_at_slash
      by (unfold no_slash in *; rewrite all_chars_append, Hb; reflexivity).
    rewrite split_at_slash by reflexivity.
    rewrite split_no_slash
      by (unfold no_slash in *; rewrite all_chars_append, Hm; reflexivity).
    reflexivity.
  - reflexivity.
  - change (String "b" ((("uilding" ++ B) ++ "/elec/meter") ++ M))
      with ((("building" ++ B) ++ "/elec/meter") ++ M)%string.
    now rewrite last_char_append.
  - now apply no_slash_last with M.
Qed.

(** What a successful parse has stored. *)
Lemma parse_inv (s : string) (k : Key) :
  parse s = Ok k ->
  let split := Py.split_slash (Py.strip Py.is_slash s) in
  utility k = (if (1 <? List.length split)%nat
               then Some (nth 1 split "") else None)
  /\ exists b, building k = Some b /\ 1 <= b
               /\ match meter k with
                  | Some m => 1 <= m /\ List.length split = 3%nat
                  | None => List.length split <> 3%nat
                  end.
Proof.
  unfold parse, Key__init__. simpl.
  set (split := Py.split_slash (Py.strip Py.is_slash s)).
  destruct (negb (Py.startswith (nth 0 split "") "building")); [discriminate|].
  destruct (Py.int (Py.remove_all "building" (nth 0 split ""))) as [b|];
    [|discriminate].
  destruct (List.length split =? 3)%nat eqn:L3.
  - destruct (negb (Py.startswith (nth 2 split "") "meter")); [discriminate|].
    destruct (Py.int (Py.remove_all "meter" (last split ""))) as [m|];
      [|discriminate].
    unfold bind, _check. simpl.
    destruct (1 <=? b) eqn:Lb; [|discriminate].
    destruct (1 <=? m) eqn:Lm; [|discriminate].
    intros [= <-]. simpl. split; [reflexivity|].
    exists b. repeat split; try lia.
    now apply Nat.eqb_eq.
  - unfold bind, _check. simpl.
    destruct (1 <=? b) eqn:Lb; [|discriminate].
    intros [= <-]. simpl. split; [reflexivity|].
    exists b. repeat split; try lia.
    now apply Nat.eqb_neq.
Qed.

Lemma repr_with_meter (u : option string) (b m : Z) :
  1 <= b -> 1 <= m ->
  __repr__ (mkKey u (Some b) (Some m))
  = Ok (("/building" ++ Py.str_int b) ++ ("/elec/meter" ++ Py.str_int m))%string.
Proof.
  intros Hb Hm. unfold __repr__, _check. simpl.
  apply Z.leb_le in Hb, Hm. now rewrite Hb, Hm.
Qed.

End KeyFacts.

(** C10: whenever a meter is set, [__repr__] writes the segment ["elec"]
    for the utility, whatever utility the key holds; so a key parsed from a
    string with another utility and a meter is rendered with ["elec"] in
    its place and not as the string it came from, as
    ["building1/gas/meter2"] comes back as ["/building1/elec/meter2"]. *)
Theorem repr_rewrites_utility_to_elec :
  (forall (u : option string) (b m : Z),
      1 <= b -> 1 <= m ->
      __repr__ (mkKey u (Some b) (Some m))
      = Ok (("/building" ++ Py.str_int b)
            ++ ("/elec/meter" ++ Py.str_int m))%string)
  /\ (forall (s u : string) (k : Key) (m : Z),
         parse s = Ok k -> utility k = Some u -> u <> "elec" ->
         meter k = Some m ->
         exists (b : Z) (rendered : string),
           building k = Some b
           /\ __repr__ k = Ok rendered
           /\ rendered = (("/building" ++ Py.str_int b)
                          ++ ("/elec/meter" ++ Py.str_int m))%string
           /\ nth 1 (Py.split_slash (Py.strip Py.is_slash rendered)) "" = "elec"
           /\ nth 1 (Py.split_slash (Py.strip Py.is_slash s)) "" = u
           /\ rendered <> s)
  /\ (k <- parse "building1/gas/meter2" ;; __repr__ k)
     = Ok "/building1/elec/meter2".
Proof.
  split; [exact repr_with_meter|]. split; [|reflexivity].
  intros s u k m P U Ne M.
  destruct (parse_inv s k P) as (Hu & b & Hb & Hb1 & Hm).
  rewrite M in Hm. destruct Hm as [Hm1 H3].
  rewrite H3 in Hu. simpl in Hu. rewrite U in Hu. injection Hu as Hu.
  exists b, (("/building" ++ Py.str_int b) ++ ("/elec/meter" ++ Py.str_int m))%string.
  assert (R : __repr__ k
              = Ok (("/building" ++ Py.str_int b)
                    ++ ("/elec/meter" ++ Py.str_int m))%string).
  { destruct k as [ku kb km]. simpl in *. subst kb km.
    now apply repr_with_meter. }
  assert (S2 : nth 1 (Py.split_slash (Py.strip Py.is_slash
                 (("/building" ++ Py.str_int b)
                  ++ ("/elec/meter" ++ Py.str_int m)))) "" = "elec").
  { now rewrite rendered_segments. }
  repeat split; auto.
  intros Eq. rewrite Eq in S2. rewrite S2 in Hu. now apply Ne.
Qed.

Lemma repr_rewrites_utility_to_elec_witness :
  __repr__ (mkKey (Some "gas") (Some 1) (Some 2)) = Ok "/building1/elec/meter2"
  /\ exists (b : Z) (rendered : string),
       building (mkKey (Some "water") (Some 3) (Some 7)) = Some b
       /\ __repr__ (mkKey (Some "water") (Some 3) (Some 7)) = Ok rendered
       /\ rendered = (("/building" ++ Py.str_int b)
                      ++ ("/elec/meter" ++ Py.str_int 7))%string
       /\ nth 1 (Py.split_slash (Py.strip Py.is_slash rendered)) "" = "elec"
       /\ nth 1 (Py.split_slash
                   (Py.strip Py.is_slash "/building3/water/meter7/")) ""
          = "water"
       /\ rendered <> "/building3/water/meter7/".
Proof.
  split.
  - apply (proj1 repr_rewrites_utility_to_elec (Some "gas") 1 2); lia.
  - apply (proj1 (proj2 repr_rewrites_utility_to_elec)
             "/building3/water/meter7/" "water"
             (mkKey (Some "water") (Some 3) (Some 7)) 7);
      [reflexivity | reflexivity | discriminate | reflexivity].
Defined.

Section KeyFailures.

(** A first segment that does not start with ["building"] is refused as
    malformed. *)
Lemma parse_first_segment (s : string) :
  Py.startswith (first_segment s) "building" = false ->
  parse s = Raise (AssertionError (first_element_is_building (first_segment s)))
  /\ format_error (AssertionError (first_element_is_building (first_segment s)))
     = true.
Proof.
  intros H. split; [|reflexivity].
  unfold parse, Key__init__. fold (first_segment s). now rewrite H.
Qed.

(** An identifier below 1 does not pass [_check]. *)
Lemma check_out_of_range (k : Key) (b : Z) :
  building k = Some b ->
  (b < 1 \/ exists m, meter k = Some m /\ m < 1) ->
  exists e, _check k = Raise e /\ validation_error e = true.
Proof.
  intros Hb H. unfold _check. rewrite Hb.
  destruct (1 <=? b) eqn:Lb.
  - destruct H as [H | (m & Hm & Lm)]; [apply Z.leb_le in Lb; lia|].
    rewrite Hm. apply Z.leb_gt in Lm. rewrite Lm.
    eexists. split; reflexivity.
  - eexists. split; reflexivity.
Qed.

(** Every failure of a parse is of one of the two kinds, and a parse
    always comes to an end. *)
Lemma parse_failure_kinds (s : string) :
  parse s <> Diverge
  /\ forall e, parse s = Raise e ->
       format_error e = true \/ validation_error e = true.
Proof.
  unfold parse, Key__init__.
  set (split := Py.split_slash (Py.strip Py.is_slash s)).
  destruct (negb (Py.startswith (nth 0 split "") "building")).
  { split; [discriminate|]. intros e [= <-]. now left. }
  destruct (Py.int (Py.remove_all "building" (nth 0 split ""))) as [b|].
  2:{ split; [discriminate|]. intros e [= <-]. now left. }
  destruct (List.length split =? 3)%nat.
  - destruct (negb (Py.startswith (nth 2 split "") "meter")).
    { split; [discriminate|]. intros e [= <-]. now left. }
    destruct (Py.int (Py.remove_all "meter" (last split ""))) as [m|].
    2:{ split; [discriminate|]. intros e [= <-]. now left. }
    unfold bind, _check. simpl.
    destruct (1 <=? b); [destruct (1 <=? m)|];
      (split; [discriminate|]); intros e [= <-]; now right.
  - unfold bind, _check. simpl.
    destruct (1 <=? b); (split; [discriminate|]); intros e [= <-]; now right.
Qed.

End KeyFailures.

(** C9: the two documented refusals hold (["bldg1"] is malformed,
    ["building0/elec/meter1"] is out of range), but a key is not refused
    whenever what follows ["building"] or ["meter"] is not an integer:
    [Key.__init__] deletes every occurrence of the word before it calls
    [int()], so ["buildingbuilding1"] is accepted as building 1 and
    ["building1/elec/metermeter2"] as meter 2. *)
Theorem parse_accepts_repeated_word :
  parse "bldg1" = Raise (AssertionError (first_element_is_building "bldg1"))
  /\ parse "building0/elec/meter1" = Raise (AssertionError building_at_least_1)
  /\ Py.startswith (first_segment "buildingbuilding1") "building" = true
  /\ Py.int (after "building" (first_segment "buildingbuilding1")) = None
  /\ parse "buildingbuilding1" = Ok (mkKey None (Some 1) None)
  /\ Py.int (after "meter" "metermeter2") = None
  /\ parse "building1/elec/metermeter2" = Ok (mkKey (Some "elec") (Some 1) (Some 2))
  /\ ~ (forall s : string,
          Py.startswith (first_segment s) "building" = true ->
          Py.int (after "building" (first_segment s)) = None ->
          exists e, parse s = Raise e /\ format_error e = true).
Proof.
  repeat split; try reflexivity.
  intros H.
  destruct (H "buildingbuilding1" eq_refl eq_refl) as (e & He & _).
  discriminate He.
Qed.

(** ** Time frames *)

Section TimeFrameFacts.

Lemma default_contains (i : Z) : TimeFrame.contains TimeFrame.default i = true.
Proof. reflexivity. Qed.

Lemma nothing_contains (i : Z) : TimeFrame.contains TimeFrame.nothing i = false.
Proof. reflexivity. Qed.

(** A row selected by the terms of an intersection lies in both
    frames. *)
Lemma intersect_query (a b : TimeFrame.t) (i : Z) :
  TimeFrame.empty (TimeFrame.intersect a b) = false ->
  TimeFrame.query_terms (TimeFrame.intersect a b) i = true ->
  TimeFrame.contains a i = true /\ TimeFrame.contains b i = true.
Proof.
  unfold TimeFrame.intersect, TimeFrame.contains, TimeFrame.query_terms.
  destruct a as [sa ea [|]], b as [sb eb [|]]; simpl; try discriminate.
  destruct sa as [sa|], sb as [sb|], ea as [ea|], eb as [eb|]; simpl;
    repeat match goal with
           | |- context [if ?c then _ else _] => destruct c eqn:?; simpl
           end;
    try discriminate; intros _ H; bool_prop;
    rewrite ?andb_true_iff, ?Z.leb_le, ?Z.ltb_lt;
    repeat split; first [reflexivity | lia].
Qed.

End TimeFrameFacts.

(** ** The iterators of the engine *)

Section EngineFacts.

Lemma in_firstn {A : Type} (m : nat) (l : list A) (x : A) :
  In x (firstn m l) -> In x l.
Proof.
  revert l. induction m as [|m IH]; intros [|a l] H; simpl in *; try tauto.
  destruct H as [H | H]; [now left | right; now apply IH].
Qed.

Lemma in_skipn {A : Type} (m : nat) (l : list A) (x : A) :
  In x (skipn m l) -> In x l.
Proof.
  revert l. induction m as [|m IH]; intros [|a l] H; simpl in *; try tauto.
  right. now apply IH.
Qed.

Lemma filter_true {A : Type} (l : list A) : filter (fun _ => true) l = l.
Proof. induction l as [|a l IH]; simpl; [reflexivity | now rewrite IH]. Qed.

Lemma firstn_nil_inv {A : Type} (n : nat) (a : A) (l : list A) :
  firstn n (a :: l) = [] -> n = O.
Proof. destruct n; [reflexivity | discriminate]. Qed.

Lemma firstn_min_length {A : Type} (n r : nat) (l : list A) :
  (List.length l <= r)%nat -> firstn (Nat.min n r) l = firstn n l.
Proof.
  intros H. destruct (Nat.le_gt_cases n r) as [L | L].
  - now rewrite Nat.min_l.
  - rewrite Nat.min_r by lia. rewrite !firstn_all2 by lia. reflexivity.
Qed.

Lemma Forall_filter_terms (terms : Z -> bool) (l : list Row) :
  Forall (fun r => terms (index r) = true)
         (filter (fun r => terms (index r)) l).
Proof. apply Forall_forall. intros x Hx. now apply filter_In in Hx. Qed.

(** Every group an iterator hands on is made of rows the terms accept, and
    has every property [Q] of the rows that a stretch and a selection of
    them inherit. *)
Section Groups.

Variable Q : list Row -> Prop.
Variable terms : Z -> bool.
Hypothesis Q_firstn : forall l m, Q l -> Q (firstn m l).
Hypothesis Q_skipn : forall l m, Q l -> Q (skipn m l).
Hypothesis Q_filter : forall l, Q l -> Q (filter (fun r => terms (index r)) l).

Lemma iterate_rows_groups (fuel n : nat) :
  forall rs g,
    Q rs -> In g (yielded (pd.iterate_rows fuel n terms rs)) ->
    Q g /\ Forall (fun r => terms (index r) = true) g.
Proof.
  induction fuel as [|fuel IH]; intros rs g Hq Hin.
  - destruct rs; simpl in Hin; contradiction.
  - destruct rs as [|r rs']; [simpl in Hin; contradiction|].
    cbn [pd.iterate_rows] in Hin.
    assert (Hv : Q (filter (fun r => terms (index r)) (firstn n (r :: rs')))
                 /\ Forall (fun r => terms (index r) = true)
                      (filter (fun r => terms (index r)) (firstn n (r :: rs'))))
      by (split; [now apply Q_filter, Q_firstn | apply Forall_filter_terms]).
    destruct (filter (fun r => terms (index r)) (firstn n (r :: rs')))
      as [|v vs].
    + apply (IH _ g (Q_skipn _ n Hq) Hin).
    + simpl in Hin. destruct Hin as [<- | Hin]; [exact Hv|].
      apply (IH _ g (Q_skipn _ n Hq) Hin).
Qed.

Lemma iterate_coordinates_groups (fuel n : nat) :
  forall remaining sel g,
    Q sel -> Forall (fun r => terms (index r) = true) sel ->
    In g (yielded (pd.iterate_coordinates fuel n remaining sel)) ->
    Q g /\ Forall (fun r => terms (index r) = true) g.
Proof.
  induction fuel as [|fuel IH]; intros remaining sel g Hq Hf Hin.
  - destruct remaining; simpl in Hin; contradiction.
  - destruct remaining as [|rem]; [simpl in Hin; contradiction|].
    cbn [pd.iterate_coordinates] in Hin.
    assert (Hs : Forall (fun r => terms (index r) = true) (skipn n sel)).
    { rewrite Forall_forall in *. intros x Hx. apply Hf.
      now apply (in_skipn n). }
    destruct (firstn (Nat.min n (S rem)) sel) as [|v vs] eqn:F.
    + apply (IH _ _ g (Q_skipn _ n Hq) Hs Hin).
    + simpl in Hin. destruct Hin as [<- | Hin].
      * rewrite <- F. split; [now apply Q_firstn|].
        rewrite Forall_forall in *. intros x Hx. apply Hf.
        now apply (in_firstn (Nat.min n (S rem))).
      * apply (IH _ _ g (Q_skipn _ n Hq) Hs Hin).
Qed.

Lemma walk_table_groups (w : walk) (n : nat) (rs g : list Row) :
  Q rs -> In g (yielded (pd.walk_table w n terms rs)) ->
  Q g /\ Forall (fun r => terms (index r) = true) g.
Proof.
  intros Hq. destruct w; simpl.
  - now apply iterate_rows_groups.
  - apply iterate_coordinates_groups;
      [now apply Q_filter | apply Forall_filter_terms].
Qed.

Lemma TableIterator_groups (how : iteration) (n : nat) (rs g : list Row) :
  Q rs -> In g (yielded (pd.TableIterator how n terms rs)) ->
  Q g /\ Forall (fun r => terms (index r) = true) g.
Proof.
  intros Hq. unfold pd.TableIterator.
  pose proof (walk_table_groups (walks how) n rs g Hq) as Hw.
  destruct (pd.walk_table (walks how) n terms rs); try exact Hw.
  destruct (empty_when_no_data how); simpl; [|tauto].
  intros [<- | []]. split; [apply (Q_firstn rs 0 Hq) | constructor].
Qed.

End Groups.

(** A read without terms of rows [rs], of which there are some: the first
    group is made of the first [n] rows and is not empty, unless the
    iterator does not return, which is what it does with steps of 0. *)
Lemma iterate_rows_first (fuel n : nat) :
  forall rs,
    rs <> [] ->
    (exists v rest,
        pd.iterate_rows fuel n (fun _ => true) rs = Yield v rest
        /\ v = firstn n rs /\ v <> [])
    \/ pd.iterate_rows fuel n (fun _ => true) rs = Hang.
Proof.
  induction fuel as [|fuel IH]; intros rs Hne.
  - destruct rs; [congruence | now right].
  - destruct rs as [|r rs']; [congruence|].
    cbn [pd.iterate_rows]. rewrite filter_true.
    destruct (firstn n (r :: rs')) as [|x xs] eqn:F.
    + apply firstn_nil_inv in F. subst n. simpl skipn.
      destruct (IH (r :: rs') Hne) as [(v & rest & _ & -> & Hv) | H];
        [now destruct Hv | now right].
    + left. exists (x :: xs), (pd.iterate_rows fuel n (fun _ => true)
                                (skipn n (r :: rs'))).
      repeat split. discriminate.
Qed.

Lemma iterate_coordinates_first (fuel n : nat) :
  forall remaining sel,
    List.length sel = remaining -> sel <> [] ->
    (exists v rest,
        pd.iterate_coordinates fuel n remaining sel = Yield v rest
        /\ v = firstn n sel /\ v <> [])
    \/ pd.iterate_coordinates fuel n remaining sel = Hang.
Proof.
  induction fuel as [|fuel IH]; intros remaining sel Hl Hne.
  - destruct sel; [congruence|]. subst remaining. now right.
  - destruct sel as [|r sel']; [congruence|]. subst remaining.
    cbn [List.length pd.iterate_coordinates].
    change (S (List.length sel')) with (List.length (r :: sel')).
    rewrite firstn_min_length by lia.
    destruct (firstn n (r :: sel')) as [|x xs] eqn:F.
    + apply firstn_nil_inv in F. subst n.
      rewrite Nat.sub_0_r. simpl skipn.
      destruct (IH _ (r :: sel') eq_refl Hne)
        as [(v & rest & _ & -> & Hv) | H]; [now destruct Hv | now right].
    + left. eexists _, _. repeat split. discriminate.
Qed.

Lemma walk_table_first (w : walk) (n : nat) (rs : list Row) :
  rs <> [] ->
  (exists v rest,
      pd.walk_table w n (fun _ => true) rs = Yield v rest
      /\ v = firstn n rs /\ v <> [])
  \/ pd.walk_table w n (fun _ => true) rs = Hang.
Proof.
  intros Hne. destruct w; simpl.
  - now apply iterate_rows_first.
  - rewrite filter_true. now apply iterate_coordinates_first.
Qed.

Lemma next_TableIterator (how : iteration) (n : nat) (rs v : list Row) :
  rs <> [] ->
  next (pd.TableIterator how n (fun _ => true) rs) = Ok v ->
  v = firstn n rs /\ v <> [].
Proof.
  intros Hne. unfold pd.TableIterator.
  destruct (walk_table_first (walks how) n rs Hne)
    as [(v' & rest & -> & Hv & Hv') | ->]; simpl; [|discriminate].
  intros [= <-]. now split.
Qed.


(** The first coordinate is the position of the first row on disk that
    satisfies the terms. *)
Lemma coordinates_head (terms : Z -> bool) (rs : list Row) :
  forall pos p ps,
    pd.coordinates terms pos rs = p :: ps ->
    exists before r rest,
      rs = (before ++ r :: rest)%list
      /\ p = (pos + List.length before)%nat
      /\ Forall (fun x => terms (index x) = false) before
      /\ terms (index r) = true.
Proof.
  induction rs as [|a rs IH]; intros pos p ps H; [discriminate|].
  simpl in H. destruct (terms (index a)) eqn:T.
  - injection H as <- _. exists [], a, rs. simpl.
    repeat split; auto.
  - destruct (IH _ _ _ H) as (before & r & rest & -> & -> & Hb & Ht).
    exists (a :: before), r, rest. simpl.
    repeat split; auto; lia.
Qed.

Lemma skipn_before {A : Type} (before after : list A) :
  skipn (List.length before) (before ++ after) = after.
Proof. induction before as [|a before IH]; simpl; auto. Qed.

(** With positive steps the iterators come to an end. *)
Lemma iterate_rows_ends (n : nat) (terms : Z -> bool) :
  (0 < n)%nat ->
  forall fuel rs,
    (List.length rs <= fuel)%nat ->
    hangs (pd.iterate_rows fuel n terms rs) = false.
Proof.
  intros Hn. induction fuel as [|fuel IH]; intros rs Hl.
  - destruct rs; [reflexivity | simpl in Hl; lia].
  - destruct rs as [|r rs']; [reflexivity|].
    cbn [pd.iterate_rows].
    assert (Hs : (List.length (skipn n (r :: rs')) <= fuel)%nat).
    { rewrite length_skipn. cbn [List.length] in *. lia. }
    destruct (filter _ (firstn n (r :: rs'))); cbn [hangs]; now apply IH.
Qed.

Lemma iterate_coordinates_ends (n : nat) :
  (0 < n)%nat ->
  forall fuel remaining sel,
    (remaining <= fuel)%nat ->
    hangs (pd.iterate_coordinates fuel n remaining sel) = false.
Proof.
  intros Hn. induction fuel as [|fuel IH]; intros remaining sel Hl.
  - destruct remaining; [reflexivity | lia].
  - destruct remaining as [|rem]; [reflexivity|].
    cbn [pd.iterate_coordinates].
    assert (Hr : (S rem - n <= fuel)%nat) by lia.
    destruct (firstn _ sel); cbn [hangs]; now apply IH.
Qed.

Lemma walk_table_ends (w : walk) (n : nat) (terms : Z -> bool)
    (rs : list Row) :
  (0 < n)%nat -> hangs (pd.walk_table w n terms rs) = false.
Proof.
  intros Hn. destruct w; simpl.
  - now apply iterate_rows_ends.
  - now apply iterate_coordinates_ends.
Qed.

Lemma TableIterator_ends (how : iteration) (n : nat) (terms : Z -> bool)
    (rs : list Row) :
  (0 < n)%nat -> hangs (pd.TableIterator how n terms rs) = false.
Proof.
  intros Hn. unfold pd.TableIterator.
  pose proof (walk_table_ends (walks how) n terms rs Hn) as Hw.
  destruct (pd.walk_table (walks how) n terms rs); try exact Hw.
  now destruct (empty_when_no_data how).
Qed.

(** What [open_table] opens is a table of the store. *)
Lemma open_table_node (h : HDFStore) (key : string) (t : Table) :
  pd.open_table h key = Ok t <-> pd.get_node h key = pd.table_node t.
Proof.
  unfold pd.open_table. destruct (pd.get_node h key); split;
    intros H; first [discriminate | now injection H as -> | reflexivity].
Qed.

Lemma find_table_storer (ts : list (string * Table)) (p : list string)
    (t : Table) :
  pd.find_table ts p = Some t ->
  exists k, pd.lookup ts k = Some t /\ pd.path k = p.
Proof.
  induction ts as [|[k0 t0] ts IH]; simpl; [discriminate|].
  destruct (list_eq_dec string_dec (pd.path k0) p) as [E | N].
  - intros [= <-]. exists k0. now rewrite String.eqb_refl.
  - intros H. destruct (IH H) as (k & Hk & Hp). exists k. split; [|exact Hp].
    destruct (String.eqb_spec k0 k) as [-> | _]; [congruence | exact Hk].
Qed.

Lemma get_node_storer (h : HDFStore) (key : string) (t : Table) :
  pd.get_node h key = pd.table_node t ->
  exists k, pd.get_storer h k = Some t.
Proof.
  unfold pd.get_node, pd.get_storer.
  destruct (pd.find_table (tables h) (pd.path key)) as [t'|] eqn:F.
  - intros [= <-]. destruct (find_table_storer _ _ _ F) as (k & Hk & _). eauto.
  - destruct (pd.path key); [discriminate|].
    repeat destruct (existsb _ _); discriminate.
Qed.

End EngineFacts.

(** ** Order *)

Section OrderFacts.

Lemma sorted_filter (f : Row -> bool) (l : list Row) :
  StronglySorted index_le l -> StronglySorted index_le (filter f l).
Proof.
  induction 1 as [|a l _ IH Ha]; simpl; [constructor|].
  destruct (f a); [|exact IH].
  constructor; [exact IH|].
  rewrite Forall_forall in *. intros x Hx.
  apply filter_In in Hx. now apply Ha.
Qed.

Lemma sorted_skipn (m : nat) (l : list Row) :
  StronglySorted index_le l -> StronglySorted index_le (skipn m l).
Proof.
  revert l. induction m as [|m IH]; intros l H; [exact H|].
  destruct l as [|a l]; [constructor|].
  simpl. apply IH. now inversion H.
Qed.

Lemma sorted_firstn (m : nat) (l : list Row) :
  StronglySorted index_le l -> StronglySorted index_le (firstn m l).
Proof.
  revert l. induction m as [|m IH]; intros l H; [constructor|].
  destruct l as [|a l]; [constructor|].
  simpl. inversion H as [|? ? Hl Ha]; subst.
  constructor; [now apply IH|].
  rewrite Forall_forall in *. intros x Hx.
  apply Ha. now apply (in_firstn m).
Qed.

Lemma fold_max_upper (x : Z) (l : list Z) :
  forall y, In y (x :: l) -> y <= fold_right Z.max x l.
Proof.
  induction l as [|a l IH]; intros y Hy; simpl in *.
  - destruct Hy as [<- | []]. lia.
  - destruct Hy as [<- | [<- | Hy]].
    + specialize (IH x (or_introl eq_refl)). lia.
    + lia.
    + specialize (IH y (or_intror Hy)). lia.
Qed.

Lemma fold_max_in (x : Z) (l : list Z) : In (fold_right Z.max x l) (x :: l).
Proof.
  induction l as [|a l IH]; simpl; [now left|].
  destruct (Z.max_spec a (fold_right Z.max x l)) as [[_ ->] | [_ ->]].
  - simpl in IH. tauto.
  - right. now left.
Qed.

Lemma fold_min_lower (x : Z) (l : list Z) :
  forall y, In y (x :: l) -> fold_right Z.min x l <= y.
Proof.
  induction l as [|a l IH]; intros y Hy; simpl in *.
  - destruct Hy as [<- | []]. lia.
  - destruct Hy as [<- | [<- | Hy]].
    + specialize (IH x (or_introl eq_refl)). lia.
    + lia.
    + specialize (IH y (or_intror Hy)). lia.
Qed.

Lemma fold_min_in (x : Z) (l : list Z) : In (fold_right Z.min x l) (x :: l).
Proof.
  induction l as [|a l IH]; simpl; [now left|].
  destruct (Z.min_spec a (fold_right Z.min x l)) as [[_ ->] | [_ ->]].
  - right. now left.
  - simpl in IH. tauto.
Qed.

(** In a sorted group the last row has the greatest index. *)
Lemma sorted_last (l : list Row) (d : Row) :
  StronglySorted index_le l ->
  forall r, In r l -> index r <= index (last l d).
Proof.
  induction 1 as [|a l Hl IH Ha]; intros r Hr; [contradiction|].
  destruct l as [|b l'].
  - destruct Hr as [<- | []]. simpl. lia.
  - change (last (a :: b :: l') d) with (last (b :: l') d).
    destruct Hr as [E | Hr]; [rewrite <- E; clear E | now apply IH].
    rewrite Forall_forall in Ha.
    assert (Hb : index_le a b) by (apply Ha; now left).
    specialize (IH b (or_introl eq_refl)). unfold index_le in Hb. lia.
Qed.

Lemma in_last (l : list Row) (a d : Row) : In (last (a :: l) d) (a :: l).
Proof.
  revert a. induction l as [|b l IH]; intros a; [now left|].
  right. apply IH.
Qed.

(** A sorted group spans from its first to its last index. *)
Lemma sorted_span (first : Row) (rest : list Row) :
  StronglySorted index_le (first :: rest) ->
  min_index (first :: rest) = Some (index first)
  /\ max_index (first :: rest) = Some (last_index (first :: rest)).
Proof.
  intros H. unfold min_index, max_index, last_index. split; f_equal.
  - apply Z.le_antisymm.
    + apply fold_min_lower. now left.
    + pose proof (fold_min_in (index first) (map index rest)) as Hin.
      destruct Hin as [<- | Hin]; [lia|].
      apply in_map_iff in Hin. destruct Hin as (r & <- & Hr).
      inversion H as [|? ? _ Ha]; subst. rewrite Forall_forall in Ha.
      now apply Ha.
  - apply Z.le_antisymm.
    + pose proof (fold_max_in (index first) (map index rest)) as Hin.
      change (index first :: map index rest)
        with (map index (first :: rest)) in Hin.
      apply in_map_iff in Hin. destruct Hin as (r & <- & Hr).
      now apply sorted_last.
    + apply fold_max_upper.
      change (index first :: map index rest) with (map index (first :: rest)).
      apply in_map. apply in_last.
Qed.

End OrderFacts.

#[local] Hint Resolve sorted_filter sorted_skipn sorted_firstn
  : order.

(** ** [load] *)

Section LoadFacts.

Variable self : HDFDataStore.
Variable key : string.
Variable cols : option (list string).
Variable n_look_ahead_rows chunksize : nat.

Lemma in_for_data (g : gen (list Row)) (k : gen DataFrame) (c : DataFrame) :
  In c (yielded (for_data self key cols n_look_ahead_rows g k)) ->
  (exists data la,
      In data (yielded g)
      /\ load_look_ahead self key cols n_look_ahead_rows data = Ok la
      /\ c = mkDataFrame data la (set_timeframe data))
  \/ In c (yielded k).
Proof.
  induction g as [|data rest IH|e|]; simpl; try tauto.
  destruct (load_look_ahead self key cols n_look_ahead_rows data)
    as [la|e|] eqn:E; simpl; try tauto.
  intros [<- | H].
  - left. exists data, la. auto.
  - destruct (IH H) as [(d & l & Hd & Hl & Hc) | Hk]; [left | now right].
    exists d, l. auto.
Qed.

Lemma in_for_period (periods : list TimeFrame.t) (c : DataFrame) :
  In c (yielded (for_period self key cols periods n_look_ahead_rows chunksize)) ->
  made_from self key cols n_look_ahead_rows chunksize periods c.
Proof.
  induction periods as [|period periods IH]; simpl; [tauto|].
  intros H. apply in_for_data in H.
  destruct H as [(data & la & Hd & Hl & Hc) | H].
  - exists period, data, la. simpl. auto.
  - destruct (IH H) as (p & data & la & Hp & Hd & Hl & Hc).
    exists p, data, la. simpl. auto.
Qed.

Lemma for_data_then (g : gen (list Row)) (k1 k2 : gen DataFrame) :
  for_data self key cols n_look_ahead_rows g (gen_then k1 k2)
  = gen_then (for_data self key cols n_look_ahead_rows g k1) k2.
Proof.
  induction g as [|data rest IH|e|]; simpl; try reflexivity.
  destruct (load_look_ahead self key cols n_look_ahead_rows data);
    simpl; [now rewrite IH | reflexivity | reflexivity].
Qed.

Lemma for_period_app (pre post : list TimeFrame.t) :
  for_period self key cols (pre ++ post) n_look_ahead_rows chunksize
  = gen_then (for_period self key cols pre n_look_ahead_rows chunksize)
             (for_period self key cols post n_look_ahead_rows chunksize).
Proof.
  induction pre as [|p pre IH]; simpl; [reflexivity|].
  now rewrite IH, for_data_then.
Qed.

(** A period outside the window gives the one frame without rows. *)
Lemma for_data_outside (period : TimeFrame.t) (k : gen DataFrame) :
  TimeFrame.empty (TimeFrame.intersect (window self) period) = true ->
  for_data self key cols n_look_ahead_rows
    (period_generator self key cols chunksize period) k
  = Yield empty_frame k.
Proof. intros H. unfold period_generator. now rewrite H. Qed.

(** The look-ahead holds at most [n_look_ahead_rows] rows and starts
    after the last row of its group: it is read from the first row on
    disk whose index is greater. *)
Lemma load_look_ahead_ok (data la : list Row) :
  load_look_ahead self key cols n_look_ahead_rows data = Ok la ->
  (List.length la <= n_look_ahead_rows)%nat
  /\ (forall r la', la = r :: la' -> last_index data < index r)
  /\ (la <> [] ->
      data <> []
      /\ exists t before after,
        pd.get_node (store self) key = pd.table_node t
        /\ table_rows t = (before ++ after)%list
        /\ Forall (fun x => index x <= last_index data) before
        /\ la = firstn n_look_ahead_rows after).
Proof.
  unfold load_look_ahead.
  destruct (0 <? List.length data)%nat eqn:Len.
  2:{ simpl. intros [= <-].
      split; [simpl; lia|]. split; [discriminate|].
      intros Hne. now destruct Hne. }
  unfold pd.select_as_coordinates, pd.select_start.
  destruct (pd.open_table (store self) key) as [t|e|] eqn:G;
    simpl; try discriminate.
  apply open_table_node in G.
  destruct (pd.coordinates (fun i => last_index data <? i) 0 (table_rows t))
    as [|p ps] eqn:C.
  { intros [= <-].
    split; [simpl; lia|]. split; [discriminate|].
    intros Hne. now destruct Hne. }
  destruct (coordinates_head _ _ _ _ _ C)
    as (before & r0 & rest & Hrows & -> & Hb & Ht).
  simpl. rewrite Hrows, skipn_before.
  intros H. apply next_TableIterator in H; [|discriminate].
  destruct H as [-> _].
  split; [apply firstn_le_length|]. split.
  - intros r la' E.
    destruct n_look_ahead_rows; [discriminate|]. simpl in E.
    injection E as <- _. now apply Z.ltb_lt.
  - intros _. split.
    { intros ->. discriminate Len. }
    exists t, before, (r0 :: rest). repeat split; auto.
    eapply Forall_impl; [|exact Hb].
    intros x Hx. now apply Z.ltb_ge.
Qed.

(** With a positive [n_look_ahead_rows] the look-ahead is read to its
    end. *)
Lemma load_look_ahead_ends (data : list Row) :
  (0 < n_look_ahead_rows)%nat ->
  load_look_ahead self key cols n_look_ahead_rows data <> Diverge.
Proof.
  intros Hn. unfold load_look_ahead.
  destruct (0 <? List.length data)%nat; [|discriminate].
  unfold pd.select_as_coordinates, pd.select_start, pd.open_table.
  destruct (pd.get_node (store self) key) as [| | |t];
    simpl; try discriminate.
  destruct (pd.coordinates _ 0 (table_rows t)) as [|p ps]; [discriminate|].
  pose proof (TableIterator_ends (iterates (store self)) n_look_ahead_rows
                (fun _ => true) (skipn p (table_rows t)) Hn) as He.
  destruct (pd.TableIterator _ _ _ _); simpl in *; congruence.
Qed.

Lemma for_data_ends (g : gen (list Row)) (k : gen DataFrame) :
  (0 < n_look_ahead_rows)%nat ->
  hangs g = false -> hangs k = false ->
  hangs (for_data self key cols n_look_ahead_rows g k) = false.
Proof.
  intros Hn Hg Hk. induction g as [|data rest IH|e|]; simpl in *; auto.
  pose proof (load_look_ahead_ends data Hn) as Hd.
  destruct (load_look_ahead self key cols n_look_ahead_rows data);
    simpl; auto. congruence.
Qed.

Lemma for_period_ends (periods : list TimeFrame.t) :
  (0 < n_look_ahead_rows)%nat -> (0 < chunksize)%nat ->
  hangs (for_period self key cols periods n_look_ahead_rows chunksize) = false.
Proof.
  intros Hn Hc. induction periods as [|period periods IH]; [reflexivity|].
  simpl. apply for_data_ends; auto.
  unfold period_generator.
  destruct (TimeFrame.empty _); [reflexivity|].
  unfold pd.select_where, pd.open_table.
  destruct (pd.get_node (store self) key); simpl; try reflexivity.
  now apply TableIterator_ends.
Qed.

(** The rows of a period are rows of the window, and come in the order
    of the table. *)
Lemma period_generator_rows (period : TimeFrame.t) (data : list Row) :
  In data (yielded (period_generator self key cols chunksize period)) ->
  Forall (fun r => TimeFrame.contains (window self) (index r) = true
                   /\ TimeFrame.contains period (index r) = true) data
  /\ (index_ordered self -> StronglySorted index_le data).
Proof.
  unfold period_generator.
  destruct (TimeFrame.empty (TimeFrame.intersect (window self) period)) eqn:E.
  { simpl. intros [<- | []]. split; constructor. }
  unfold pd.select_where.
  destruct (pd.open_table (store self) key) as [t|e|] eqn:G;
    simpl; try contradiction.
  apply open_table_node in G. intros H. split.
  - apply (TableIterator_groups (fun _ => True)) in H; auto.
    destruct H as [_ H]. eapply Forall_impl; [|exact H].
    intros r Hr. now apply intersect_query.
  - intros Hord.
    apply (TableIterator_groups (StronglySorted index_le)) in H;
      [tauto | auto with order ..].
    destruct (get_node_storer _ _ _ G) as (k & Hk).
    apply (Hord k t Hk).
Qed.

(** The time frame of a sorted group. *)
Lemma set_timeframe_span (data : list Row) :
  StronglySorted index_le data ->
  (data <> [] ->
   set_timeframe data = TimeFrame.new (min_index data) (max_index data))
  /\ (data = [] -> set_timeframe data = TimeFrame.default).
Proof.
  intros H. split.
  - destruct data as [|first rest]; [congruence|]. intros _.
    destruct (sorted_span first rest H) as [-> ->]. reflexivity.
  - intros ->. reflexivity.
Qed.

End LoadFacts.

Lemma in_load (self : HDFDataStore) (key : string)
    (cols : option (list string)) (periods : option (list TimeFrame.t))
    (n_look_ahead_rows chunksize : nat) (c : DataFrame) :
  In c (yielded (load self key cols periods n_look_ahead_rows chunksize)) ->
  exists key' ps,
    normalise_key key = Ok key'
    /\ made_from self key' cols n_look_ahead_rows chunksize ps c.
Proof.
  unfold load. destruct (normalise_key key) as [key'|e|]; simpl; try tauto.
  intros H. apply in_for_period in H. eauto.
Qed.

Lemma sample_store_ordered (w : TimeFrame.t) : index_ordered (sample_store w).
Proof.
  intros key t. unfold pd.get_storer, sample_store.
  cbn [store tables pd.lookup].
  destruct (String.eqb "/building1/elec/meter1" key); [|discriminate].
  intros [= <-]. unfold sample_table. cbn [table_rows map].
  repeat (constructor; [|repeat constructor; unfold index_le; simpl; lia]).
  constructor.
Qed.

(** With positive sizes [load] comes to an end: the model's [Hang] is met
    with a size of 0 only. *)
Lemma load_ends (self : HDFDataStore) (key : string)
    (cols : option (list string)) (periods : option (list TimeFrame.t))
    (n_look_ahead_rows chunksize : nat) :
  (0 < n_look_ahead_rows)%nat -> (0 < chunksize)%nat ->
  hangs (load self key cols periods n_look_ahead_rows chunksize) = false.
Proof.
  intros Hn Hc. unfold load.
  destruct (normalise_key key) as [key'|e|] eqn:E.
  - now apply for_period_ends.
  - reflexivity.
  - destruct key; discriminate.
Qed.

(** The look-ahead need not start with the row that lies on disk right
    behind the frame: where the table repeats a time stamp at the end of a
    frame, the look-ahead starts behind the repetition.  C1 fails as it is
    worded. *)
Lemma look_ahead_skips_repeated_time_stamp :
  ~ (forall (self : HDFDataStore) (key k : string)
            (cols : option (list string))
            (periods : option (list TimeFrame.t))
            (n_look_ahead_rows chunksize : nat) (c : DataFrame) (t : Table),
        In c (yielded (load self key cols periods n_look_ahead_rows chunksize)) ->
        normalise_key key = Ok k ->
        pd.get_node (store self) k = pd.table_node t ->
        (List.length (look_ahead c) <= n_look_ahead_rows)%nat
        /\ (forall r la', look_ahead c = r :: la' ->
              last_index (rows c) < index r)
        /\ follows_on_disk t (rows c) (look_ahead c)).
Proof.
  intros H.
  destruct (H (repeated_store (mkIteration by_coordinates false))
              "building1/elec/meter1" "/building1/elec/meter1" None None
              2%nat 2%nat
              (mkDataFrame (map sample_row [1; 2]) (map sample_row [3])
                           (TimeFrame.new (Some 1) (Some 2)))
              repeated_table)
    as (_ & _ & before & after & E & F).
  - vm_compute. left. reflexivity.
  - reflexivity.
  - reflexivity.
  - destruct (F (sample_row 3) [] eq_refl) as [after' ->].
    vm_compute in E.
    destruct before as [|b0 [|b1 [|b2 [|b3 [|b4 before]]]]];
      simpl in E; discriminate E.
Qed.

(** C1, amended: every frame [load] yields has a look-ahead of at most
    [n_look_ahead_rows] rows, and a look-ahead that is not empty starts
    with a row whose index is greater than the index of the last row of
    the frame: it is read from the first such row on disk onwards, which
    need not be the row right behind the frame, and whatever the periods
    are. *)
Theorem load_look_ahead_bounded :
  forall (self : HDFDataStore) (key : string) (cols : option (list string))
         (periods : option (list TimeFrame.t))
         (n_look_ahead_rows chunksize : nat) (c : DataFrame),
    In c (yielded (load self key cols periods n_look_ahead_rows chunksize)) ->
    (List.length (look_ahead c) <= n_look_ahead_rows)%nat
    /\ (forall r la', look_ahead c = r :: la' -> last_index (rows c) < index r)
    /\ (look_ahead c <> [] ->
        rows c <> []
        /\ exists key' t before after,
          normalise_key key = Ok key'
          /\ pd.get_node (store self) key' = pd.table_node t
          /\ table_rows t = (before ++ after)%list
          /\ Forall (fun x => index x <= last_index (rows c)) before
          /\ look_ahead c = firstn n_look_ahead_rows after).
Proof.
  intros self key cols periods n cs c H.
  apply in_load in H.
  destruct H as (key' & ps & Hk & period & data & la & _ & _ & Hl & ->).
  simpl.
  destruct (load_look_ahead_ok self key' cols n data la Hl) as (H1 & H2 & H3).
  split; [exact H1|]. split; [exact H2|].
  intros Hne.
  destruct (H3 Hne) as (Hd & t & before & after & Ht & Hr & Hb & Hla).
  split; [exact Hd|].
  exists key', t, before, after. auto.
Qed.

Lemma load_look_ahead_bounded_witness :
  (List.length (map sample_row [3]%Z) <= 2)%nat
  /\ (forall r la', map sample_row [3] = r :: la' ->
        last_index (map sample_row [1; 2]) < index r)
  /\ (map sample_row [3] <> [] ->
      map sample_row [1; 2] <> []
      /\ exists key' t before after,
        normalise_key "building1/elec/meter1//" = Ok key'
        /\ pd.get_node (store (repeated_store (mkIteration by_rows false))) key'
           = pd.table_node t
        /\ table_rows t = (before ++ after)%list
        /\ Forall (fun x => index x <= last_index (map sample_row [1; 2])) before
        /\ map sample_row [3] = firstn 2 after).
Proof.
  apply (load_look_ahead_bounded (repeated_store (mkIteration by_rows false))
           "building1/elec/meter1//" None None 2 2
           (mkDataFrame (map sample_row [1; 2]) (map sample_row [3])
                        (TimeFrame.new (Some 1) (Some 2)))).
  vm_compute. left. reflexivity.
Defined.

(** A frame without rows carries [TimeFrame()], which is not flagged
    empty: the reading of C2 with the empty interval fails, also on a
    store kept in the order of its index. *)
Lemma timeframe_of_no_rows_is_not_empty :
  ~ (forall (self : HDFDataStore) (key : string) (cols : option (list string))
            (periods : option (list TimeFrame.t))
            (n_look_ahead_rows chunksize : nat) (c : DataFrame),
        index_ordered self ->
        In c (yielded (load self key cols periods n_look_ahead_rows chunksize)) ->
        (rows c <> [] ->
         timeframe c = TimeFrame.new (min_index (rows c)) (max_index (rows c)))
        /\ (rows c = [] -> TimeFrame.empty (timeframe c) = true)).
Proof.
  intros H.
  destruct (H (sample_store (TimeFrame.new (Some 1) (Some 3)))
              "building1/elec/meter1" None
              (Some [TimeFrame.new (Some 7) (Some 9)]) 2%nat 2%nat
              empty_frame (sample_store_ordered _) (or_introl eq_refl))
    as [_ E].
  specialize (E eq_refl). discriminate E.
Qed.

(** C2, amended: on a store kept in the order of its index, a frame with
    rows carries the time frame from the least to the greatest index of
    its rows; a frame without rows carries [TimeFrame()], the unbounded
    frame that holds every instant and is not flagged empty. *)
Theorem load_timeframe_spans_rows :
  forall (self : HDFDataStore) (key : string) (cols : option (list string))
         (periods : option (list TimeFrame.t))
         (n_look_ahead_rows chunksize : nat) (c : DataFrame),
    index_ordered self ->
    In c (yielded (load self key cols periods n_look_ahead_rows chunksize)) ->
    (rows c <> [] ->
     timeframe c = TimeFrame.new (min_index (rows c)) (max_index (rows c)))
    /\ (rows c = [] ->
        timeframe c = TimeFrame.default
        /\ TimeFrame.empty (timeframe c) = false
        /\ forall i, TimeFrame.contains (timeframe c) i = true).
Proof.
  intros self key cols periods n cs c Hord H.
  apply in_load in H.
  destruct H as (key' & ps & _ & period & data & la & _ & Hd & _ & ->).
  simpl.
  apply period_generator_rows in Hd. destruct Hd as [_ Hs].
  destruct (set_timeframe_span data (Hs Hord)) as [Hne He].
  split; [exact Hne|].
  intros E. rewrite (He E). repeat split.
Qed.

Lemma load_timeframe_spans_rows_witness :
  (map sample_row [3; 4] <> [] ->
   TimeFrame.new (Some 3) (Some 4)
   = TimeFrame.new (min_index (map sample_row [3; 4]))
                   (max_index (map sample_row [3; 4])))
  /\ (map sample_row [3; 4] = [] ->
      TimeFrame.new (Some 3) (Some 4) = TimeFrame.default
      /\ TimeFrame.empty (TimeFrame.new (Some 3) (Some 4)) = false
      /\ forall i, TimeFrame.contains (TimeFrame.new (Some 3) (Some 4)) i = true).
Proof.
  apply (load_timeframe_spans_rows (sample_store TimeFrame.default)
           "building1/elec/meter1" None None 1 2
           (mkDataFrame (map sample_row [3; 4]) (map sample_row [5])
                        (TimeFrame.new (Some 3) (Some 4)))
           (sample_store_ordered _)).
  vm_compute. right. left. reflexivity.
Defined.

(** The frame yielded for a period outside the window does not carry an
    empty time frame: C3 fails as it is worded. *)
Lemma frame_outside_window_has_unbounded_timeframe :
  ~ (forall (self : HDFDataStore) (key : string) (cols : option (list string))
            (pre post : list TimeFrame.t) (period : TimeFrame.t)
            (n_look_ahead_rows chunksize : nat),
        TimeFrame.empty (TimeFrame.intersect (window self) period) = true ->
        exists c : DataFrame,
          load self key cols (Some (pre ++ period :: post)%list)
            n_look_ahead_rows chunksize
          = gen_then
              (load self key cols (Some pre) n_look_ahead_rows chunksize)
              (Yield c
                 (load self key cols (Some post) n_look_ahead_rows chunksize))
          /\ rows c = []
          /\ TimeFrame.empty (timeframe c) = true
          /\ look_ahead c = []).
Proof.
  intros H.
  destruct (H (sample_store (TimeFrame.new (Some 5) (Some 10)))
              "building1/elec/meter1" None [] []
              (TimeFrame.new (Some 0) (Some 3)) 2%nat 2%nat eq_refl)
    as (c & E & _ & T & _).
  vm_compute in E. injection E as <-. discriminate T.
Qed.

(** C3, amended: for a period that does not meet the window, [load] yields
    one frame, after the frames of the periods before it and before those
    of the periods after it; the frame has no rows and no look-ahead, and
    its time frame is [TimeFrame()], unbounded and not flagged empty. *)
Theorem load_period_outside_window :
  forall (self : HDFDataStore) (key : string) (cols : option (list string))
         (pre post : list TimeFrame.t) (period : TimeFrame.t)
         (n_look_ahead_rows chunksize : nat),
    TimeFrame.empty (TimeFrame.intersect (window self) period) = true ->
    load self key cols (Some (pre ++ period :: post)%list)
      n_look_ahead_rows chunksize
    = gen_then
        (load self key cols (Some pre) n_look_ahead_rows chunksize)
        (Yield empty_frame
           (load self key cols (Some post) n_look_ahead_rows chunksize))
    /\ rows empty_frame = []
    /\ look_ahead empty_frame = []
    /\ timeframe empty_frame = TimeFrame.default
    /\ TimeFrame.empty (timeframe empty_frame) = false.
Proof.
  intros self key cols pre post period n cs E.
  split; [|repeat split].
  unfold load. destruct (normalise_key key) as [key'|e|]; try reflexivity.
  rewrite for_period_app. f_equal.
  simpl. now apply for_data_outside.
Qed.

Lemma load_period_outside_window_witness :
  load (sample_store (TimeFrame.new (Some 1) (Some 3)))
    "building1/elec/meter1" None
    (Some ([TimeFrame.default]
           ++ TimeFrame.new (Some 7) (Some 9) :: [TimeFrame.new None (Some 2)])%list)
    2 10
  = gen_then
      (load (sample_store (TimeFrame.new (Some 1) (Some 3)))
         "building1/elec/meter1" None (Some [TimeFrame.default]) 2 10)
      (Yield empty_frame
         (load (sample_store (TimeFrame.new (Some 1) (Some 3)))
            "building1/elec/meter1" None
            (Some [TimeFrame.new None (Some 2)]) 2 10)).
Proof.
  apply (load_period_outside_window
           (sample_store (TimeFrame.new (Some 1) (Some 3)))
           "building1/elec/meter1" None
           [TimeFrame.default] [TimeFrame.new None (Some 2)]
           (TimeFrame.new (Some 7) (Some 9)) 2 10).
  reflexivity.
Defined.

(** The look-ahead is read past the window: C4 fails for its rows. *)
Lemma look_ahead_row_outside_window :
  ~ (forall (self : HDFDataStore) (key : string) (cols : option (list string))
            (periods : option (list TimeFrame.t))
            (n_look_ahead_rows chunksize : nat) (c : DataFrame) (r : Row),
        In c (yielded (load self key cols periods n_look_ahead_rows chunksize)) ->
        In r (rows c ++ look_ahead c)%list ->
        TimeFrame.contains (window self) (index r) = true).
Proof.
  intros H.
  specialize (H (sample_store (TimeFrame.new (Some 1) (Some 3)))
                "building1/elec/meter1" None None 2%nat 10%nat
                (mkDataFrame (map sample_row [1; 2]) (map sample_row [3; 4])
                             (TimeFrame.new (Some 1) (Some 2)))
                (sample_row 3)).
  assert (F : TimeFrame.contains (TimeFrame.new (Some 1) (Some 3)) 3 = true).
  { apply H.
    - vm_compute. left. reflexivity.
    - vm_compute. right. right. left. reflexivity. }
  discriminate F.
Qed.

(** C4, amended: every row of the row set of a frame yielded by [load] has
    its index inside the window; the rows of the look-ahead are read from
    what follows on disk and need not. *)
Theorem load_rows_inside_window :
  forall (self : HDFDataStore) (key : string) (cols : option (list string))
         (periods : option (list TimeFrame.t))
         (n_look_ahead_rows chunksize : nat) (c : DataFrame) (r : Row),
    In c (yielded (load self key cols periods n_look_ahead_rows chunksize)) ->
    In r (rows c) ->
    TimeFrame.contains (window self) (index r) = true.
Proof.
  intros self key cols periods n cs c r H Hr.
  apply in_load in H.
  destruct H as (key' & ps & _ & period & data & la & _ & Hd & _ & ->).
  simpl in Hr.
  apply period_generator_rows in Hd. destruct Hd as [Hf _].
  rewrite Forall_forall in Hf. now apply Hf.
Qed.

Lemma load_rows_inside_window_witness :
  TimeFrame.contains (TimeFrame.new (Some 1) (Some 3)) (index (sample_row 2))
  = true.
Proof.
  apply (load_rows_inside_window
           (sample_store (TimeFrame.new (Some 1) (Some 3)))
           "building1/elec/meter1" None None 2 10
           (mkDataFrame (map sample_row [1; 2]) (map sample_row [3; 4])
                        (TimeFrame.new (Some 1) (Some 2)))
           (sample_row 2)).
  - vm_compute. left. reflexivity.
  - vm_compute. right. left. reflexivity.
Defined.

(** * Further properties of the module *)

(** ** The key of a read *)

Section KeySpelling.

Lemma first_char_truthy (s : string) (c : ascii) :
  Py.first_char s = Some c -> Py.truthy s = true.
Proof. destruct s; [discriminate | reflexivity]. Qed.

Lemma drop_last_first (c : ascii) (s : string) :
  Py.truthy s = true ->
  Py.drop_last (String c s) = String c (Py.drop_last s).
Proof. destruct s; [discriminate | reflexivity]. Qed.

Lemma last_char_cons (c : ascii) (s : string) :
  Py.truthy s = true -> Py.last_char (String c s) = Py.last_char s.
Proof. destruct s; [discriminate | reflexivity]. Qed.

(** A key that starts with a slash and does not end with one is left as
    it is. *)
Lemma normalise_key_fixed (k : string) :
  Py.first_char k = Some "/"%char ->
  k = "/" \/ Py.last_char k <> Some "/"%char ->
  normalise_key k = Ok k.
Proof.
  destruct k as [|c k']; [discriminate|]. intros [= ->] H.
  unfold normalise_key. simpl negb. cbv iota.
  destruct H as [-> | H]; [reflexivity|].
  destruct (Py.last_char (String "/" k')) as [d|] eqn:L.
  - destruct (Ascii.eqb d "/") eqn:E.
    + apply Ascii.eqb_eq in E. subst d. now contradiction H.
    + now rewrite andb_false_r.
  - now rewrite andb_false_r.
Qed.

Lemma normalise_key_cons (c : ascii) (rest : string) :
  normalise_key (String c rest)
  = Ok (let front := if negb (Ascii.eqb c "/")
                     then ("/" ++ String c rest)%string else String c rest in
        if ((1 <? String.length front)%nat
            && match Py.last_char front with
               | Some d => Ascii.eqb d "/"
               | None => false
               end)%bool
        then Py.drop_last front else front).
Proof. reflexivity. Qed.

Lemma normalise_key_back (key : string) :
  key <> "" -> Py.last_char key <> Some "/"%char ->
  normalise_key (key ++ "/") = normalise_key key.
Proof.
  destruct key as [|c rest]; [congruence|]. intros _ L.
  unfold normalise_key.
  change (String c rest ++ "/")%string with (String c (rest ++ "/")).
  cbv iota.
  set (front := if negb (Ascii.eqb c "/") then ("/" ++ String c rest)%string
                else String c rest).
  assert (F : (if negb (Ascii.eqb c "/")
               then ("/" ++ String c (rest ++ "/"))%string
               else String c (rest ++ "/")) = (front ++ "/")%string).
  { unfold front. destruct (negb (Ascii.eqb c "/")); reflexivity. }
  rewrite F.
  assert (Lf : Py.last_char front = Py.last_char (String c rest)).
  { unfold front. destruct (negb (Ascii.eqb c "/")); [|reflexivity].
    now apply (last_char_append "/"). }
  rewrite (last_char_append front "/") by reflexivity. simpl Py.last_char at 1.
  rewrite length_append. simpl String.length at 2.
  replace (1 <? String.length front + 1)%nat with true.
  2:{ symmetry. apply Nat.ltb_lt.
      assert (0 < String.length front)%nat; [|lia].
      unfold front. destruct (negb (Ascii.eqb c "/")); simpl; lia. }
  simpl andb. cbv iota. change (Ascii.eqb "/" "/") with true. cbv iota.
  rewrite drop_last_snoc, Lf.
  destruct (Py.last_char (String c rest)) as [d|] eqn:Ld.
  - destruct (Ascii.eqb d "/") eqn:E.
    + apply Ascii.eqb_eq in E. subst d. now contradiction L.
    + now rewrite andb_false_r.
  - now rewrite andb_false_r.
Qed.

Lemma normalise_key_front (key : string) :
  key <> "" -> Py.first_char key <> Some "/"%char ->
  normalise_key ("/" ++ key) = normalise_key key.
Proof.
  destruct key as [|c rest]; [congruence|]. intros _ F.
  unfold normalise_key. simpl append. cbv iota.
  change (Ascii.eqb "/" "/") with true. simpl negb at 1. cbv iota.
  destruct (Ascii.eqb c "/") eqn:E.
  - apply Ascii.eqb_eq in E. subst c. now contradiction F.
  - reflexivity.
Qed.

End KeySpelling.

(** X1: a slash put before a key that has none, or after a key that does
    not end with one, does not change what [load] reads. *)
Theorem load_key_spelling :
  forall (self : HDFDataStore) (key : string) (cols : option (list string))
         (periods : option (list TimeFrame.t))
         (n_look_ahead_rows chunksize : nat),
    key <> "" ->
    (Py.first_char key <> Some "/"%char ->
     load self ("/" ++ key) cols periods n_look_ahead_rows chunksize
     = load self key cols periods n_look_ahead_rows chunksize)
    /\ (Py.last_char key <> Some "/"%char ->
        load self (key ++ "/") cols periods n_look_ahead_rows chunksize
        = load self key cols periods n_look_ahead_rows chunksize).
Proof.
  intros self key cols periods n cs Hne. split; intros H; unfold load.
  - now rewrite normalise_key_front.
  - now rewrite normalise_key_back.
Qed.

Lemma load_key_spelling_witness :
  load (sample_store TimeFrame.default) ("/" ++ "building1/elec/meter1")
    None None 2 2
  = load (sample_store TimeFrame.default) "building1/elec/meter1" None None 2 2
  /\ load (sample_store TimeFrame.default) ("/building1/elec/meter1" ++ "/")
       None None 2 2
     = load (sample_store TimeFrame.default) "/building1/elec/meter1"
         None None 2 2.
Proof.
  split.
  - apply (proj1 (load_key_spelling (sample_store TimeFrame.default)
                    "building1/elec/meter1" None None 2 2 ltac:(discriminate)));
      discriminate.
  - apply (proj2 (load_key_spelling (sample_store TimeFrame.default)
                    "/building1/elec/meter1" None None 2 2 ltac:(discriminate)));
      discriminate.
Defined.

(** X2: [load] fails with [IndexError] on the empty key before it yields
    anything.  Any other key is turned into one that starts with a slash;
    unless the key ends with two slashes, the result has no slash at its
    end (or is the root ["/"]) and is left alone when normalised again.
    Of two slashes at the end only one is removed. *)
Theorem normalise_key_shape :
  (forall (self : HDFDataStore) (cols : option (list string))
          (periods : option (list TimeFrame.t)) (n cs : nat),
      load self "" cols periods n cs = Throw IndexError)
  /\ (forall key : string,
         key <> "" ->
         exists k,
           normalise_key key = Ok k
           /\ Py.first_char k = Some "/"%char
           /\ ((Py.last_char key = Some "/"%char ->
                Py.last_char (Py.drop_last key) <> Some "/"%char) ->
               (k = "/" \/ Py.last_char k <> Some "/"%char)
               /\ normalise_key k = Ok k))
  /\ (forall key : string,
         key <> "" ->
         exists k,
           normalise_key (key ++ "//") = Ok k
           /\ Py.last_char k = Some "/"%char).
Proof.
  split; [reflexivity|]. split.
  - intros key Hne. destruct key as [|c rest]; [congruence|].
    rewrite normalise_key_cons. cbv zeta.
    set (front := if negb (Ascii.eqb c "/") then ("/" ++ String c rest)%string
                  else String c rest).
    assert (Hf : exists body, front = String "/" body
                 /\ (body = rest /\ c = "/"%char \/ body = String c rest)).
    { unfold front. destruct (Ascii.eqb c "/") eqn:E; simpl.
      - apply Ascii.eqb_eq in E. subst c. exists rest. auto.
      - exists (String c rest). auto. }
    destruct Hf as (body & Hf & Hb). rewrite Hf.
    assert (Hlast : Py.truthy body = true ->
                    Py.last_char (String "/" body) = Py.last_char (String c rest)
                    /\ (Py.truthy (Py.drop_last body) = true ->
                        Py.last_char (Py.drop_last body)
                        = Py.last_char (Py.drop_last (String c rest)))).
    { intros Tb. destruct Hb as [[-> ->] | ->].
      - split; [reflexivity|]. intros Td.
        rewrite (drop_last_first "/" rest Tb).
        now rewrite (last_char_cons "/" _ Td).
      - split; [now apply last_char_cons | reflexivity]. }
    match goal with
    | |- context [if ?b then _ else _] => destruct b eqn:Cond
    end.
    + apply andb_prop in Cond. destruct Cond as [Len Sl].
      assert (Tb : Py.truthy body = true).
      { destruct body; [discriminate | reflexivity]. }
      destruct (Hlast Tb) as [L1 L2].
      destruct (Py.last_char (String "/" body)) as [d|] eqn:Ld; [|discriminate].
      apply Ascii.eqb_eq in Sl. subst d.
      rewrite (drop_last_first "/" body Tb).
      eexists. split; [reflexivity|]. split; [reflexivity|].
      intros H. symmetry in L1. specialize (H L1).
      assert (K : String "/" (Py.drop_last body) = "/"
                  \/ Py.last_char (String "/" (Py.drop_last body))
                     <> Some "/"%char).
      { destruct (Py.drop_last body) as [|x y] eqn:D; [now left | right].
        rewrite (last_char_cons "/" (String x y)) by reflexivity.
        rewrite L2 by reflexivity. exact H. }
      split; [exact K|]. now apply normalise_key_fixed.
    + eexists. split; [reflexivity|]. split; [reflexivity|]. intros _.
      assert (K : String "/" body = "/"
                  \/ Py.last_char (String "/" body) <> Some "/"%char).
      { destruct body as [|x y]; [now left | right].
        intros L. rewrite L in Cond. simpl in Cond. discriminate. }
      split; [exact K|]. now apply normalise_key_fixed.
  - intros key Hne.
    replace (key ++ "//")%string with ((key ++ "/") ++ "/")%string
      by (now rewrite append_assoc).
    destruct key as [|c rest]; [congruence|].
    change ((String c rest ++ "/") ++ "/")%string
      with (String c ((rest ++ "/") ++ "/")).
    rewrite normalise_key_cons. cbv zeta.
    set (front := if negb (Ascii.eqb c "/")
                  then ("/" ++ String c (rest ++ "/"))%string
                  else String c (rest ++ "/")).
    assert (F : (if negb (Ascii.eqb c "/")
                 then ("/" ++ String c ((rest ++ "/") ++ "/"))%string
                 else String c ((rest ++ "/") ++ "/")) = (front ++ "/")%string).
    { unfold front. destruct (negb (Ascii.eqb c "/")); reflexivity. }
    rewrite F.
    assert (Lf : Py.last_char front = Some "/"%char).
    { unfold front. destruct (negb (Ascii.eqb c "/")).
      - rewrite (last_char_append "/") by reflexivity.
        change (String c (rest ++ "/")) with (String c rest ++ "/")%string.
        now rewrite last_char_append.
      - change (String c (rest ++ "/")) with (String c rest ++ "/")%string.
        now rewrite last_char_append. }
    rewrite (last_char_append front "/") by reflexivity.
    rewrite length_append.
    replace (1 <? String.length front + String.length "/")%nat with true.
    2:{ symmetry. apply Nat.ltb_lt. simpl.
        assert (0 < String.length front)%nat; [|lia].
        unfold front. destruct (negb (Ascii.eqb c "/")); simpl; lia. }
    simpl. rewrite drop_last_snoc. eauto.
Qed.

Lemma normalise_key_shape_witness :
  (exists k,
      normalise_key "building1/elec/" = Ok k
      /\ Py.first_char k = Some "/"%char
      /\ ((Py.last_char "building1/elec/" = Some "/"%char ->
           Py.last_char (Py.drop_last "building1/elec/") <> Some "/"%char) ->
          (k = "/" \/ Py.last_char k <> Some "/"%char)
          /\ normalise_key k = Ok k))
  /\ exists k,
       normalise_key ("building1" ++ "//") = Ok k
       /\ Py.last_char k = Some "/"%char.
Proof.
  split.
  - apply (proj1 (proj2 normalise_key_shape) "building1/elec/"). discriminate.
  - apply (proj2 (proj2 normalise_key_shape) "building1"). discriminate.
Defined.

(** ** What a read yields *)

Section ReadFacts.

Variable self : HDFDataStore.
Variable key : string.
Variable cols : option (list string).
Variable n_look_ahead_rows chunksize : nat.

Lemma for_period_all_outside (periods : list TimeFrame.t) :
  Forall (fun p => outside self p = true) periods ->
  for_period self key cols periods n_look_ahead_rows chunksize
  = yield_all (repeat empty_frame (List.length periods)) Stop.
Proof.
  induction 1 as [|p ps Hp _ IH]; [reflexivity|].
  simpl. rewrite for_data_outside by exact Hp. now rewrite IH.
Qed.









Lemma coordinates_nil (terms : Z -> bool) (rs : list Row) (pos : nat) :
  pd.coordinates terms pos rs = []
  <-> Forall (fun r => terms (index r) = false) rs.
Proof.
  revert pos. induction rs as [|r rs IH]; intros pos; simpl.
  - split; [constructor | reflexivity].
  - destruct (terms (index r)) eqn:T; split; intros H.
    + discriminate.
    + inversion H; congruence.
    + constructor; [exact T | now apply (IH (S pos))].
    + inversion H. now apply (IH (S pos)).
Qed.





End ReadFacts.

(** X3: when every period misses the window, [load] yields one frame
    without rows for each and stops, without any call to the store: the
    key need not be in it, and the sizes may be anything. *)
Theorem load_all_periods_outside :
  forall (self : HDFDataStore) (key : string) (cols : option (list string))
         (periods : list TimeFrame.t) (n_look_ahead_rows chunksize : nat),
    key <> "" ->
    Forall (fun p => outside self p = true) periods ->
    load self key cols (Some periods) n_look_ahead_rows chunksize
    = yield_all (repeat empty_frame (List.length periods)) Stop.
Proof.
  intros self key cols periods n cs Hne Hall. unfold load.
  destruct key as [|c rest]; [congruence|].
  rewrite normalise_key_cons. now apply for_period_all_outside.
Qed.

Lemma load_all_periods_outside_witness :
  load (sample_store (TimeFrame.new (Some 3) (Some 5))) "no/such/table" None
    (Some [TimeFrame.new (Some 7) None; TimeFrame.new None (Some 2)]) 0 0
  = yield_all (repeat empty_frame 2) Stop.
Proof.
  apply (load_all_periods_outside
           (sample_store (TimeFrame.new (Some 3) (Some 5))) "no/such/table"
           None [TimeFrame.new (Some 7) None; TimeFrame.new None (Some 2)] 0 0).
  - discriminate.
  - repeat constructor.
Defined.





Lemma in_load_periods (self : HDFDataStore) (key : string)
    (cols : option (list string)) (periods : option (list TimeFrame.t))
    (n_look_ahead_rows chunksize : nat) (c : DataFrame) :
  In c (yielded (load self key cols periods n_look_ahead_rows chunksize)) ->
  exists key',
    normalise_key key = Ok key'
    /\ made_from self key' cols n_look_ahead_rows chunksize
         (match periods with
          | None => [TimeFrame.default]
          | Some ps => ps
          end) c.
Proof.
  unfold load. destruct (normalise_key key) as [key'|e|]; simpl; try tauto.
  intros H. apply in_for_period in H. eauto.
Qed.






(** X8: the look-ahead of a frame with rows is empty exactly when no row
    of the table has an index above that of the frame's last row; the key
    of such a frame names a table of the store. *)
Theorem load_look_ahead_empty_iff :
  forall (self : HDFDataStore) (key : string) (cols : option (list string))
         (periods : option (list TimeFrame.t))
         (n_look_ahead_rows chunksize : nat) (c : DataFrame),
    In c (yielded (load self key cols periods n_look_ahead_rows chunksize)) ->
    rows c <> [] ->
    exists k t,
      normalise_key key = Ok k
      /\ pd.get_node (store self) k = pd.table_node t
      /\ (look_ahead c = []
          <-> Forall (fun r => index r <= last_index (rows c)) (table_rows t)).
Proof.
  intros self key cols periods n cs c H Hne.
  apply in_load_periods in H.
  destruct H as (k & Hk & period & data & la & _ & _ & Hl & ->).
  simpl in *. exists k.
  unfold load_look_ahead in Hl.
  destruct data as [|d0 data']; [congruence|].
  change (0 <? List.length (d0 :: data'))%nat with true in Hl. cbv iota in Hl.
  unfold pd.select_as_coordinates, pd.select_start in Hl.
  destruct (pd.open_table (store self) k) as [t|e|] eqn:G;
    simpl in Hl; try discriminate.
  apply open_table_node in G.
  exists t. split; [exact Hk|]. split; [exact G|].
  destruct (pd.coordinates (fun i => last_index (d0 :: data') <? i) 0
              (table_rows t)) as [|p ps] eqn:C.
  - injection Hl as <-. split; [intros _ | reflexivity].
    apply coordinates_nil in C.
    eapply Forall_impl; [|exact C]. intros r Hr. now apply Z.ltb_ge.
  - destruct (coordinates_head _ _ _ _ _ C)
      as (before & r0 & rest & Hrows & -> & _ & _).
    simpl in Hl. rewrite Hrows, skipn_before in Hl.
    apply next_TableIterator in Hl; [|discriminate].
    destruct Hl as [_ Hla].
    split; [intros E; congruence|]. intros F.
    assert (C' : pd.coordinates (fun i => last_index (d0 :: data') <? i) 0
                   (table_rows t) = []).
    { apply coordinates_nil. eapply Forall_impl; [|exact F].
      intros r Hr. now apply Z.ltb_ge. }
    rewrite Hrows in C'. congruence.
Qed.

Lemma load_look_ahead_empty_iff_witness :
  exists k t,
    normalise_key "building1/elec/meter1" = Ok k
    /\ pd.get_node (store (sample_store TimeFrame.default)) k = pd.table_node t
    /\ (@nil Row = []
        <-> Forall (fun r => index r <= last_index (map sample_row [5]))
              (table_rows t)).
Proof.
  apply (load_look_ahead_empty_iff (sample_store TimeFrame.default)
           "building1/elec/meter1" None None 2 2
           (mkDataFrame (map sample_row [5]) [] (TimeFrame.new (Some 5) (Some 5)))).
  - vm_compute. right. right. left. reflexivity.
  - discriminate.
Defined.

(** ** Keys, columns and the estimate *)

Section TableFacts.

Variable self : HDFDataStore.








End TableFacts.















(** X13: the memory guard is monotone in the number of rows: a read that
    passes it still passes with fewer rows (not below zero), for the same
    key and columns. *)
Theorem check_data_will_fit_in_memory_monotone :
  forall (self : HDFDataStore) (key : string) (cols : option (list string))
         (nrows nrows' : Z),
    0 <= nrows' <= nrows ->
    _check_data_will_fit_in_memory self key nrows cols = Ok tt ->
    _check_data_will_fit_in_memory self key nrows' cols = Ok tt.
Proof.
  intros self key cols nrows nrows' Hle.
  assert (Inner : forall cs : list string,
    (m <- (if list_eq_dec string_dec cs ["index"]
           then Ok (nrows * BYTES_PER_TIMESTAMP)
           else Ok (nrows * Z.of_nat (List.length cs) * BYTES_PER_ELEMENT
                    + nrows * BYTES_PER_TIMESTAMP)) ;;
     if MAX_MEM_ALLOWANCE_IN_BYTES <? m
     then Raise (MemoryError (mbytes m)) else Ok tt) = Ok tt ->
    (m <- (if list_eq_dec string_dec cs ["index"]
           then Ok (nrows' * BYTES_PER_TIMESTAMP)
           else Ok (nrows' * Z.of_nat (List.length cs) * BYTES_PER_ELEMENT
                    + nrows' * BYTES_PER_TIMESTAMP)) ;;
     if MAX_MEM_ALLOWANCE_IN_BYTES <? m
     then Raise (MemoryError (mbytes m)) else Ok tt) = Ok tt).
  { intros cs.
    unfold MAX_MEM_ALLOWANCE_IN_BYTES, BYTES_PER_ELEMENT, BYTES_PER_TIMESTAMP.
    pose proof (Nat2Z.is_nonneg (List.length cs)) as Hn.
    set (ncols := Z.of_nat (List.length cs)) in *.
    assert (Hd : nrows' * ncols * 4 <= nrows * ncols * 4) by nia.
    destruct (list_eq_dec string_dec cs ["index"]); cbn [bind];
      repeat match goal with
             | |- context [if ?b then _ else _] => destruct b eqn:?
             end; try discriminate; try reflexivity; bool_prop; intros _; lia. }
  unfold _check_data_will_fit_in_memory, _estimate_memory_requirement.
  destruct cols as [cs|]; cbn [bind]; [apply Inner|].
  destruct (_column_names self key) as [cs|e|]; cbn [bind];
    [apply Inner | discriminate | discriminate].
Qed.

Lemma check_data_will_fit_in_memory_monotone_witness :
  _check_data_will_fit_in_memory (sample_store TimeFrame.default)
    "/building1/elec/meter1" 1000 None = Ok tt.
Proof.
  apply (check_data_will_fit_in_memory_monotone
           (sample_store TimeFrame.default) "/building1/elec/meter1" None
           83333333 1000); [lia | reflexivity].
Defined.

(** ** Numerals read back *)

Section NumeralsReadBack.

Lemma all_chars_impl (p q : ascii -> bool) (s : string) :
  (forall c, p c = true -> q c = true) ->
  all_chars p s = true -> all_chars q s = true.
Proof.
  intros Hpq. induction s as [|c s IH]; simpl; [reflexivity|].
  intros H. apply andb_prop in H. destruct H as [Hc Hs].
  now rewrite (Hpq c Hc), (IH Hs).
Qed.

Lemma all_chars_last (p : ascii -> bool) (s : string) (c : ascii) :
  all_chars p s = true -> Py.last_char s = Some c -> p c = true.
Proof.
  induction s as [|x s IH]; simpl; [discriminate|].
  intros H. apply andb_prop in H. destruct H as [Hx Hs].
  destruct s as [|y s']; [now intros [= <-] | now apply IH].
Qed.

Lemma uint_digits (d : uint) :
  all_chars is_digit (NilEmpty.string_of_uint d) = true.
Proof. induction d; simpl; auto. Qed.

Lemma digit_not_space (c : ascii) : is_digit c = true -> Py.is_space c = false.
Proof.
  unfold is_digit, Py.is_space. intros H.
  apply andb_prop in H. destruct H as [H1 H2].
  apply Nat.leb_le in H1, H2.
  apply orb_false_iff. split.
  - apply Nat.eqb_neq. lia.
  - apply andb_false_iff. right. apply Nat.leb_gt. lia.
Qed.

Lemma digit_not (o c : ascii) :
  is_digit o = false -> is_digit c = true -> negb (Ascii.eqb c o) = true.
Proof.
  intros Ho Hc. destruct (Ascii.eqb_spec c o); [congruence | reflexivity].
Qed.

(** A numeral without sign is read as it stands. *)
Lemma int_unsigned (c : ascii) (s : string) :
  is_digit c = true ->
  all_chars is_digit s = true ->
  Py.int (String c s) = Py.digits (String c s).
Proof.
  intros Hc Hs. unfold Py.int.
  assert (St : Py.strip Py.is_space (String c s) = String c s).
  { unfold Py.strip. simpl Py.lstrip. rewrite (digit_not_space c Hc).
    destruct (last_char_truthy (String c s) eq_refl) as [l L].
    apply rstrip_id with l; [exact L|].
    apply digit_not_space.
    apply (all_chars_last is_digit (String c s)); [|exact L].
    simpl. now rewrite Hc, Hs. }
  rewrite St.
  destruct (Ascii.eqb_spec c "-") as [-> | N1]; [discriminate Hc|].
  destruct (Ascii.eqb_spec c "+") as [-> | N2]; [discriminate Hc|].
  destruct c as [[|] [|] [|] [|] [|] [|] [|] [|]];
    first [reflexivity | congruence].
Qed.

Lemma digits_of_uint (d : uint) :
  d <> Nil -> Py.digits (NilEmpty.string_of_uint d) = Some (Z.of_uint d).
Proof.
  intros Hd. unfold Py.digits. rewrite NilEmpty.usu.
  destruct d; first [congruence | reflexivity].
Qed.

Lemma digits_of_nilzero (d : uint) :
  Py.digits (NilZero.string_of_uint d) = Some (Z.of_uint d).
Proof.
  destruct d; first [reflexivity | now apply digits_of_uint].
Qed.

Lemma nilzero_digits (d : uint) :
  all_chars is_digit (NilZero.string_of_uint d) = true.
Proof. destruct d; first [reflexivity | exact (uint_digits _)]. Qed.

Lemma nilzero_cons (d : uint) :
  exists c s, NilZero.string_of_uint d = String c s
              /\ is_digit c = true /\ all_chars is_digit s = true.
Proof.
  pose proof (nilzero_digits d) as H.
  destruct (NilZero.string_of_uint d) as [|c s] eqn:E.
  - destruct d; discriminate E.
  - simpl in H. apply andb_prop in H. destruct H. eauto.
Qed.

(** [int(str(z)) == z]. *)
Lemma int_str_int (z : Z) : Py.int (Py.str_int z) = Some z.
Proof.
  unfold Py.str_int. rewrite <- (DecimalZ.of_to z) at 2.
  destruct (Z.to_int z) as [d|d]; simpl NilZero.string_of_int.
  - destruct (nilzero_cons d) as (c & s & E & Hc & Hs).
    rewrite E, (int_unsigned c s Hc Hs), <- E. apply digits_of_nilzero.
  - destruct (nilzero_cons d) as (c & s & E & Hc & Hs).
    unfold Py.int.
    assert (St : Py.strip Py.is_space (String "-" (NilZero.string_of_uint d))
                 = String "-" (NilZero.string_of_uint d)).
    { unfold Py.strip. simpl Py.lstrip.
      destruct (last_char_truthy (String "-" (NilZero.string_of_uint d)) eq_refl)
        as [l L].
      apply rstrip_id with l; [exact L|].
      apply digit_not_space.
      rewrite E in L. rewrite last_char_cons in L by reflexivity.
      apply (all_chars_last is_digit (String c s)); [|exact L].
      simpl. now rewrite Hc, Hs. }
    rewrite St, digits_of_nilzero. reflexivity.
Qed.

(** The numeral of a number that is not negative is made of digits. *)
Lemma str_int_digits (z : Z) :
  0 <= z -> all_chars is_digit (Py.str_int z) = true.
Proof.
  intros Hz. unfold Py.str_int.
  destruct z as [|p|p]; [reflexivity | apply nilzero_digits | lia].
Qed.

(** Where the first character of [old] does not occur, nothing is
    removed. *)
Lemma remove_from_clean (o : ascii) (old' s : string) :
  all_chars (fun c => negb (Ascii.eqb c o)) s = true ->
  Py.remove_from (String o old') O s = s.
Proof.
  induction s as [|c s IH]; [reflexivity|].
  simpl all_chars. intros H. apply andb_prop in H. destruct H as [Hc Hs].
  cbn [Py.remove_from String.prefix].
  destruct (ascii_dec o c) as [-> | _].
  - rewrite Ascii.eqb_refl in Hc. discriminate.
  - now rewrite (IH Hs).
Qed.

Lemma remove_building (d : string) :
  all_chars is_digit d = true ->
  Py.remove_all "building" ("building" ++ d) = d.
Proof.
  intros H. unfold Py.remove_all. simpl.
  replace (String.prefix "" d) with true by (now destruct d).
  apply remove_from_clean.
  apply (all_chars_impl is_digit); [|exact H].
  intros c. now apply digit_not.
Qed.

Lemma remove_meter (d : string) :
  all_chars is_digit d = true ->
  Py.remove_all "meter" ("meter" ++ d) = d.
Proof.
  intros H. unfold Py.remove_all. simpl.
  replace (String.prefix "" d) with true by (now destruct d).
  apply remove_from_clean.
  apply (all_chars_impl is_digit); [|exact H].
  intros c. now apply digit_not.
Qed.

End NumeralsReadBack.

(** ** Keys built, rendered and read back *)

Section KeyRoundTrip.

Lemma startswith_append (p s : string) : Py.startswith (p ++ s) p = true.
Proof.
  unfold Py.startswith. induction p as [|c p IH]; simpl.
  - now destruct s.
  - destruct (ascii_dec c c); [exact IH | congruence].
Qed.

Lemma rendered_building_segments (b : Z) :
  Py.split_slash (Py.strip Py.is_slash ("/building" ++ Py.str_int b))
  = ["building" ++ Py.str_int b]%string.
Proof.
  pose proof (str_int_no_slash b) as Hb.
  pose proof (str_int_truthy b) as Tb.
  set (B := Py.str_int b) in *.
  destruct (last_char_truthy B Tb) as [l L].
  change ("/building" ++ B)%string with (String "/" (String "b" ("uilding" ++ B))).
  rewrite (strip_path "b" l).
  - apply split_no_slash.
    change (String "b" ("uilding" ++ B)) with ("building" ++ B)%string.
    unfold no_slash in *. now rewrite all_chars_append, Hb.
  - reflexivity.
  - change (String "b" ("uilding" ++ B)) with ("building" ++ B)%string.
    now rewrite last_char_append.
  - now apply no_slash_last with B.
Qed.

Lemma parse_rendered_building (b : Z) :
  1 <= b ->
  parse ("/building" ++ Py.str_int b) = Ok (mkKey None (Some b) None).
Proof.
  intros Hb. unfold parse, Key__init__.
  rewrite rendered_building_segments.
  cbn [nth List.length Nat.ltb Nat.leb Nat.eqb].
  rewrite startswith_append. cbn [negb].
  rewrite remove_building by (apply str_int_digits; lia).
  rewrite int_str_int. cbn [bind].
  unfold _check. cbn [building meter].
  apply Z.leb_le in Hb. now rewrite Hb.
Qed.

Lemma parse_rendered_meter (b m : Z) :
  1 <= b -> 1 <= m ->
  parse (("/building" ++ Py.str_int b) ++ ("/elec/meter" ++ Py.str_int m))
  = Ok (mkKey (Some "elec") (Some b) (Some m)).
Proof.
  intros Hb Hm. unfold parse, Key__init__.
  rewrite rendered_segments.
  cbn [nth List.length Nat.ltb Nat.leb Nat.eqb last].
  rewrite !startswith_append. cbn [negb].
  rewrite remove_building by (apply str_int_digits; lia).
  rewrite remove_meter by (apply str_int_digits; lia).
  rewrite !int_str_int. cbn [bind].
  unfold _check. cbn [building meter].
  apply Z.leb_le in Hb, Hm. now rewrite Hb, Hm.
Qed.

(** What [_check] lets through. *)
Lemma check_ok (k : Key) :
  _check k = Ok tt ->
  exists b, building k = Some b /\ 1 <= b
            /\ forall m, meter k = Some m -> 1 <= m.
Proof.
  unfold _check. destruct (building k) as [b|]; [|discriminate].
  destruct (1 <=? b) eqn:Lb; [|discriminate].
  apply Z.leb_le in Lb.
  destruct (meter k) as [m|].
  - destruct (1 <=? m) eqn:Lm; [|discriminate]. apply Z.leb_le in Lm.
    intros _. exists b. repeat split; auto. now intros m' [= <-].
  - intros _. exists b. repeat split; auto. discriminate.
Qed.

Lemma repr_of_checked (k : Key) (b : Z) :
  _check k = Ok tt -> building k = Some b ->
  __repr__ k
  = Ok (match meter k with
        | Some m => ("/building" ++ Py.str_int b)
                    ++ ("/elec/meter" ++ Py.str_int m)
        | None => "/building" ++ Py.str_int b
        end)%string.
Proof.
  intros C B. unfold __repr__. rewrite C, B. simpl.
  now destruct (meter k).
Qed.

Lemma init_checked (s : option string) (b m : option Z) (k : Key) :
  Key__init__ s b m = Ok k -> _check k = Ok tt.
Proof.
  unfold Key__init__, bind.
  match goal with
  | |- match ?e with _ => _ end = _ -> _ => destruct e as [self|e'|]
  end; try discriminate.
  destruct (_check self) as [[]|e'|] eqn:C; try discriminate.
  now intros [= <-].
Qed.

End KeyRoundTrip.

Section StripFacts.

Variable p : ascii -> bool.

Lemma lstrip_snoc (s : string) (c : ascii) :
  p c = true ->
  Py.lstrip p (s ++ String c "")
  = if Py.truthy (Py.lstrip p s) then (Py.lstrip p s ++ String c "")%string
    else "".
Proof.
  intros Pc. induction s as [|x s IH]; simpl.
  - now rewrite Pc.
  - destruct (p x); [exact IH | reflexivity].
Qed.

Lemma rstrip_snoc (s : string) (c : ascii) :
  p c = true -> Py.rstrip p (s ++ String c "") = Py.rstrip p s.
Proof.
  intros Pc. induction s as [|x s IH]; simpl.
  - now rewrite Pc.
  - now rewrite IH.
Qed.

Lemma strip_snoc (s : string) (c : ascii) :
  p c = true -> Py.strip p (s ++ String c "") = Py.strip p s.
Proof.
  intros Pc. unfold Py.strip. rewrite (lstrip_snoc s c Pc).
  destruct (Py.lstrip p s) as [|x y] eqn:E; [reflexivity|].
  simpl Py.truthy. cbv iota. now apply rstrip_snoc.
Qed.

Lemma strip_cons (s : string) (c : ascii) :
  p c = true -> Py.strip p (String c s) = Py.strip p s.
Proof. intros Pc. unfold Py.strip. simpl. now rewrite Pc. Qed.

Lemma lstrip_first (s : string) (c : ascii) :
  Py.first_char (Py.lstrip p s) = Some c -> p c = false.
Proof.
  induction s as [|x s IH]; simpl; [discriminate|].
  destruct (p x) eqn:Px; [exact IH|]. simpl. now intros [= <-].
Qed.

Lemma rstrip_first (s : string) (c : ascii) :
  Py.first_char (Py.rstrip p s) = Some c -> Py.first_char s = Some c.
Proof.
  destruct s as [|x s]; simpl; [discriminate|].
  destruct (Py.rstrip p s); [destruct (p x)|]; simpl; congruence.
Qed.

Lemma strip_first (s : string) (c : ascii) :
  Py.first_char (Py.strip p s) = Some c -> p c = false.
Proof.
  unfold Py.strip. intros H. apply rstrip_first in H.
  now apply lstrip_first in H.
Qed.

End StripFacts.

Lemma split_slash_length (s : string) :
  (1 <= List.length (Py.split_slash s))%nat.
Proof.
  induction s as [|c s IH]; simpl; [lia|].
  destruct (Py.is_slash c); simpl; [lia|].
  destruct (Py.split_slash s); simpl in *; lia.
Qed.

(** X14: every key that [Key.__init__] returns, from a string or from
    numbers, holds a building of at least 1 and, if any, a meter of at
    least 1, and [__repr__] renders it without failure to a path that
    starts with a slash. *)
Theorem key_init_valid :
  forall (s : option string) (b m : option Z) (k : Key),
    Key__init__ s b m = Ok k ->
    exists b',
      building k = Some b' /\ 1 <= b'
      /\ (forall m', meter k = Some m' -> 1 <= m')
      /\ exists r, __repr__ k = Ok r /\ Py.first_char r = Some "/"%char.
Proof.
  intros s b m k H. apply init_checked in H.
  destruct (check_ok k H) as (b' & B & Hb & Hm).
  exists b'. repeat split; auto.
  rewrite (repr_of_checked k b' H B).
  eexists. split; [reflexivity|]. now destruct (meter k).
Qed.

Lemma key_init_valid_witness :
  exists b',
    building (mkKey None (Some 2) None) = Some b' /\ 1 <= b'
    /\ (forall m', meter (mkKey None (Some 2) None) = Some m' -> 1 <= m')
    /\ exists r, __repr__ (mkKey None (Some 2) None) = Ok r
                 /\ Py.first_char r = Some "/"%char.
Proof.
  apply (key_init_valid None (Some 2) None (mkKey None (Some 2) None)).
  reflexivity.
Defined.

(** X15: built from numbers, a key is accepted exactly when the building
    is an integer of at least 1 and the meter, if given, is at least 1; it
    then holds these two and no utility; every refusal is an
    [AssertionError] of [_check]. *)
Theorem key_build :
  forall (b m : option Z),
    (forall k,
        Key__init__ None b m = Ok k
        <-> k = mkKey None b m
            /\ (exists b', b = Some b' /\ 1 <= b')
            /\ (forall m', m = Some m' -> 1 <= m'))
    /\ (forall e,
           Key__init__ None b m = Raise e ->
           e = AssertionError building_is_int
           \/ e = AssertionError building_at_least_1
           \/ e = AssertionError meter_at_least_1)
    /\ Key__init__ None b m <> Diverge.
Proof.
  intros b m. unfold Key__init__, _check. simpl.
  destruct b as [b|]; simpl.
  2:{ split; [|split]; [| intros e [= <-]; auto | discriminate].
      intros k. split; [discriminate|]. intros (_ & (b' & E & _) & _).
      discriminate. }
  destruct (1 <=? b) eqn:Lb.
  2:{ apply Z.leb_gt in Lb.
      split; [|split]; [| intros e [= <-]; auto | discriminate].
      intros k. split; [discriminate|]. intros (_ & (b' & [= <-] & Hb) & _).
      lia. }
  apply Z.leb_le in Lb.
  destruct m as [m|]; simpl.
  - destruct (1 <=? m) eqn:Lm.
    + apply Z.leb_le in Lm.
      split; [|split]; [| discriminate | discriminate].
      intros k. split.
      * intros [= <-]. repeat split; eauto. now intros m' [= <-].
      * now intros (-> & _).
    + apply Z.leb_gt in Lm.
      split; [|split]; [| intros e [= <-]; auto | discriminate].
      intros k. split; [discriminate|]. intros (_ & _ & Hm).
      specialize (Hm m eq_refl). lia.
  - split; [|split]; [| discriminate | discriminate].
    intros k. split.
    + intros [= <-]. repeat split; eauto. discriminate.
    + now intros (-> & _).
Qed.

Lemma key_build_witness :
  Key__init__ None (Some 2) (Some 5) = Ok (mkKey None (Some 2) (Some 5)).
Proof.
  apply (proj2 (proj1 (key_build (Some 2) (Some 5))
                  (mkKey None (Some 2) (Some 5)))).
  repeat split.
  - exists 2. split; [reflexivity | lia].
  - intros m' [= <-]. lia.
Defined.

(** X16: what [__repr__] writes for a valid key is read back by
    [Key.__init__] as a key with the same building and the same meter, and
    with the utility ["elec"] exactly when there is a meter; that key is
    rendered as the same text again. *)
Theorem key_render_parse :
  forall (k : Key) (r : string),
    _check k = Ok tt ->
    __repr__ k = Ok r ->
    exists k',
      parse r = Ok k'
      /\ building k' = building k
      /\ meter k' = meter k
      /\ utility k' = match meter k with
                      | Some _ => Some "elec"
                      | None => None
                      end
      /\ __repr__ k' = Ok r.
Proof.
  intros k r C R.
  destruct (check_ok k C) as (b & B & Hb & Hm).
  pose proof (repr_of_checked k b C B) as R'.
  destruct (meter k) as [m|] eqn:M.
  - specialize (Hm m eq_refl).
    assert (Er : r = (("/building" ++ Py.str_int b)
                      ++ ("/elec/meter" ++ Py.str_int m))%string)
      by congruence.
    subst r.
    exists (mkKey (Some "elec") (Some b) (Some m)).
    rewrite parse_rendered_meter by assumption.
    repeat split; auto. now apply repr_with_meter.
  - assert (Er : r = ("/building" ++ Py.str_int b)%string) by congruence.
    subst r.
    exists (mkKey None (Some b) None).
    rewrite parse_rendered_building by assumption.
    repeat split; auto.
    unfold __repr__, _check. simpl. apply Z.leb_le in Hb. now rewrite Hb.
Qed.

Lemma key_render_parse_witness :
  exists k',
    parse "/building3/elec/meter7" = Ok k'
    /\ building k' = building (mkKey (Some "gas") (Some 3) (Some 7))
    /\ meter k' = meter (mkKey (Some "gas") (Some 3) (Some 7))
    /\ utility k' = match meter (mkKey (Some "gas") (Some 3) (Some 7)) with
                    | Some _ => Some "elec"
                    | None => None
                    end
    /\ __repr__ k' = Ok "/building3/elec/meter7".
Proof.
  apply (key_render_parse (mkKey (Some "gas") (Some 3) (Some 7))
           "/building3/elec/meter7"); reflexivity.
Defined.

(** X17: a parsed key holds a meter exactly when its string, stripped of
    slashes at both ends, has three segments, and a utility exactly when
    it has more than one.  With any other number of segments than three
    the meter is dropped without an error, and the key is rendered as
    ["/building<B>"] alone. *)
Theorem parse_segments :
  forall (s : string) (k : Key),
    parse s = Ok k ->
    let split := Py.split_slash (Py.strip Py.is_slash s) in
    (meter k = None <-> List.length split <> 3%nat)
    /\ (utility k = None <-> List.length split = 1%nat)
    /\ (List.length split <> 3%nat ->
        exists b, building k = Some b
                  /\ __repr__ k = Ok ("/building" ++ Py.str_int b)%string).
Proof.
  intros s k P split.
  pose proof (init_checked (Some s) None None k P) as C.
  destruct (parse_inv s k P) as (Hu & b & B & Hb & Hm). fold split in Hu, Hm.
  pose proof (split_slash_length (Py.strip Py.is_slash s)) as Hlen.
  fold split in Hlen.
  split; [|split].
  - destruct (meter k) as [m|].
    + split; [discriminate|]. intros H. destruct Hm as [_ Hm]. contradiction.
    + split; [intros _; exact Hm | reflexivity].
  - rewrite Hu. destruct (1 <? List.length split)%nat eqn:L.
    + apply Nat.ltb_lt in L. split; [discriminate | lia].
    + apply Nat.ltb_ge in L. split; [lia | reflexivity].
  - intros H3. exists b. split; [exact B|].
    rewrite (repr_of_checked k b C B).
    destruct (meter k) as [m|]; [|reflexivity].
    destruct Hm as [_ Hm]. contradiction.
Qed.

Lemma parse_segments_witness :
  let split := Py.split_slash
                 (Py.strip Py.is_slash "building1/elec/meter2/extra") in
  (meter (mkKey (Some "elec") (Some 1) None) = None
   <-> List.length split <> 3%nat)
  /\ (utility (mkKey (Some "elec") (Some 1) None) = None
      <-> List.length split = 1%nat)
  /\ (List.length split <> 3%nat ->
      exists b, building (mkKey (Some "elec") (Some 1) None) = Some b
                /\ __repr__ (mkKey (Some "elec") (Some 1) None)
                   = Ok ("/building" ++ Py.str_int b)%string).
Proof.
  apply (parse_segments "building1/elec/meter2/extra"
           (mkKey (Some "elec") (Some 1) None)).
  reflexivity.
Defined.

(** X18: slashes before and after a key string do not matter to
    [Key.__init__]: the string with one more slash at either end is
    parsed to the same result, be it a key or an error. *)
Theorem parse_ignores_outer_slashes :
  forall s : string,
    parse ("/" ++ s) = parse s /\ parse (s ++ "/") = parse s.
Proof.
  intros s. unfold parse, Key__init__. split.
  - change ("/" ++ s)%string with (String "/" s).
    now rewrite (strip_cons Py.is_slash s "/" eq_refl).
  - now rewrite (strip_snoc Py.is_slash s "/" eq_refl).
Qed.

(** ** Paths joined again *)

Section JoinAgain.

Lemma join_segments_app (a b : list segment) :
  join_segments (a ++ b) = (join_segments a ++ join_segments b)%list.
Proof. unfold join_segments. now rewrite map_app, filter_app. Qed.

Lemma trailing_app (a b : list string) :
  trailing (a ++ b) = (trailing a ++ trailing b)%string.
Proof.
  induction a as [|s a IH]; simpl; [reflexivity|].
  now rewrite IH, !append_assoc.
Qed.

Lemma join_segments_truthy (args : list segment) :
  Forall (fun x => Py.truthy x = true
                   /\ exists a, x = Py.strip Py.is_slash (str a))
         (join_segments args).
Proof.
  apply Forall_forall. intros x Hx.
  unfold join_segments in Hx. apply filter_In in Hx. destruct Hx as [Hx Ht].
  apply in_map_iff in Hx. destruct Hx as (a & <- & _). eauto.
Qed.

Lemma first_char_append (a b : string) :
  Py.truthy a = true -> Py.first_char (a ++ b) = Py.first_char a.
Proof. destruct a; [discriminate | reflexivity]. Qed.

Lemma first_char_concat (s : string) (segs : list string) :
  Py.truthy s = true ->
  Py.first_char (String.concat "/" (s :: segs)) = Py.first_char s.
Proof.
  intros Hs. destruct segs as [|t segs]; [reflexivity|].
  change (String.concat "/" (s :: t :: segs))
    with (s ++ ("/" ++ String.concat "/" (t :: segs)))%string.
  now apply first_char_append.
Qed.

(** Stripped of its slashes, a joined path is its segments with slashes
    between them. *)
Lemma strip_join_spec (args : list segment) :
  Py.strip Py.is_slash (join_spec args)
  = String.concat "/" (join_segments args).
Proof.
  unfold join_spec. pose proof (join_segments_truthy args) as Hall.
  destruct (join_segments args) as [|s segs]; [reflexivity|].
  assert (Htr : Forall (fun x => Py.truthy x = true) (s :: segs)).
  { eapply Forall_impl; [|exact Hall]. simpl. tauto. }
  assert (Hs : Py.truthy s = true) by now inversion Htr.
  pose proof (first_char_concat s segs Hs) as F.
  pose proof (last_char_concat s segs Htr) as L.
  destruct (String.concat "/" (s :: segs)) as [|x body] eqn:E.
  { destruct s; [discriminate | destruct segs; discriminate]. }
  inversion Hall as [|? ? [_ (a & Ha)] _]; subst.
  assert (Hl : In (last segs (Py.strip Py.is_slash (str a)))
                  (Py.strip Py.is_slash (str a) :: segs)).
  { clear. generalize (Py.strip Py.is_slash (str a)) as s. intros s.
    revert s. induction segs as [|t segs IH]; intros s; [now left|].
    right. rewrite (last_cons segs t s). apply IH. }
  rewrite Forall_forall in Hall. destruct (Hall _ Hl) as (Tl & a' & Ha').
  destruct (last_char_truthy _ Tl) as [l Ll].
  change ("/" ++ String x body)%string with (String "/" (String x body)).
  apply (strip_path x l).
  - apply (strip_first Py.is_slash (str a)). now rewrite <- F.
  - now rewrite L.
  - apply (strip_last Py.is_slash (str a')). now rewrite <- Ha'.
Qed.

Lemma concat_truthy (s : string) (segs : list string) :
  Py.truthy s = true -> Py.truthy (String.concat "/" (s :: segs)) = true.
Proof.
  intros Hs. destruct segs; simpl; [exact Hs|].
  destruct s; [discriminate | reflexivity].
Qed.

(** A joined path, used as a segment, brings in its own segments. *)
Lemma trailing_joined (b : list segment) :
  trailing (join_segments [SegStr (join_key b)])
  = trailing (join_segments b).
Proof.
  unfold join_segments at 1. cbn [map str].
  rewrite join_key_refines, strip_join_spec.
  pose proof (join_segments_truthy b) as Hall.
  destruct (join_segments b) as [|s segs] eqn:E; [reflexivity|].
  assert (Hs : Py.truthy s = true).
  { inversion Hall as [|? ? [Hs _] _]. exact Hs. }
  cbn [filter]. rewrite (concat_truthy s segs Hs).
  rewrite (trailing_concat s segs). reflexivity.
Qed.

Lemma join_key_by_trailing (args : list segment) :
  join_key args
  = let key := ("/" ++ trailing (join_segments args))%string in
    if (1 <? String.length key)%nat then Py.drop_last key else key.
Proof. unfold join_key. now rewrite fold_join_step. Qed.

Lemma first_char_join_key (args : list segment) :
  Py.first_char (join_key args) = Some "/"%char.
Proof. now rewrite join_key_refines. Qed.

End JoinAgain.

(** X19: a path made by [join_key] can be joined as a segment among
    others: the result is the join of all the segments in a row.  In
    particular joining a joined path alone gives it back. *)
Theorem join_key_of_joined :
  forall a b c : list segment,
    join_key (a ++ SegStr (join_key b) :: c) = join_key (a ++ b ++ c)
    /\ join_key [SegStr (join_key b)] = join_key b.
Proof.
  assert (H : forall a b c,
             join_key (a ++ SegStr (join_key b) :: c) = join_key (a ++ b ++ c)).
  { intros a b c.
    rewrite (join_key_by_trailing (a ++ SegStr (join_key b) :: c)),
            (join_key_by_trailing (a ++ b ++ c)).
    change (SegStr (join_key b) :: c) with ([SegStr (join_key b)] ++ c)%list.
    rewrite !join_segments_app, !trailing_app.
    now rewrite trailing_joined. }
  intros a b c. split; [apply H|].
  specialize (H [] b []). simpl in H. now rewrite app_nil_r in H.
Qed.

(** X20: a path made by [join_key] is in the form [load] gives its key:
    it starts with a slash and the normalisation of [load] leaves it as it
    is, so [load] reads the table of that very key. *)
Theorem join_key_is_normalised :
  forall args : list segment,
    Py.first_char (join_key args) = Some "/"%char
    /\ normalise_key (join_key args) = Ok (join_key args)
    /\ forall (self : HDFDataStore) (cols : option (list string))
              (periods : list TimeFrame.t) (n cs : nat),
         load self (join_key args) cols (Some periods) n cs
         = for_period self (join_key args) cols periods n cs.
Proof.
  intros args.
  assert (N : normalise_key (join_key args) = Ok (join_key args)).
  { apply normalise_key_fixed.
    - apply first_char_join_key.
    - apply join_key_no_trailing_slash. }
  split; [apply first_char_join_key|]. split; [exact N|].
  intros self cols periods n cs. unfold load. now rewrite N.
Qed.

(** X21: the text [__repr__] gives for a valid key is the join of its
    parts by [join_key], the building, and with a meter the utility
    ["elec"] and the meter; joined again or normalised by [load] it stays
    the same. *)
Theorem repr_is_join_key :
  forall (k : Key) (r : string),
    _check k = Ok tt ->
    __repr__ k = Ok r ->
    exists b,
      building k = Some b
      /\ r = join_key
               (SegStr ("building" ++ Py.str_int b)
                :: match meter k with
                   | Some m => [SegStr "elec"; SegStr ("meter" ++ Py.str_int m)]
                   | None => []
                   end)
      /\ join_key [SegStr r] = r
      /\ normalise_key r = Ok r.
Proof.
  intros k r C R.
  destruct (check_ok k C) as (b & B & Hb & Hm).
  pose proof (repr_of_checked k b C B) as R'.
  exists b. split; [exact B|].
  assert (Sb : Py.strip Py.is_slash ("building" ++ Py.str_int b)
               = ("building" ++ Py.str_int b)%string).
  { pose proof (rendered_building_segments b) as S.
    change ("/building" ++ Py.str_int b)%string
      with (String "/" ("building" ++ Py.str_int b)) in S.
    rewrite (strip_cons Py.is_slash _ "/" eq_refl) in S.
    destruct (Py.strip Py.is_slash ("building" ++ Py.str_int b)) as [|x y] eqn:E.
    - simpl in S. injection S as S. symmetry in S.
      destruct (Py.str_int b); discriminate S.
    - rewrite <- E in *. clear E.
      assert (Ns : no_slash ("building" ++ Py.str_int b) = true).
      { unfold no_slash. rewrite all_chars_append.
        pose proof (str_int_no_slash b) as Hs. unfold no_slash in Hs.
        now rewrite Hs. }
      unfold Py.strip. simpl Py.lstrip.
      destruct (last_char_truthy ("building" ++ Py.str_int b) eq_refl) as [l L].
      apply rstrip_id with l; [exact L|]. now apply no_slash_last with
        ("building" ++ Py.str_int b)%string. }
  assert (E : r = join_key
                    (SegStr ("building" ++ Py.str_int b)
                     :: match meter k with
                        | Some m => [SegStr "elec";
                                     SegStr ("meter" ++ Py.str_int m)]
                        | None => []
                        end)).
  { rewrite join_key_refines. unfold join_spec, join_segments.
    destruct (meter k) as [m|] eqn:M.
    - assert (Er : r = (("/building" ++ Py.str_int b)
                        ++ ("/elec/meter" ++ Py.str_int m))%string)
        by congruence.
      assert (Sm : Py.strip Py.is_slash ("meter" ++ Py.str_int m)
                   = ("meter" ++ Py.str_int m)%string).
      { assert (Ns : no_slash ("meter" ++ Py.str_int m) = true).
        { unfold no_slash. rewrite all_chars_append.
          pose proof (str_int_no_slash m) as Hs. unfold no_slash in Hs.
          now rewrite Hs. }
        unfold Py.strip. simpl Py.lstrip.
        destruct (last_char_truthy ("meter" ++ Py.str_int m) eq_refl) as [l L].
        apply rstrip_id with l; [exact L|]. now apply no_slash_last with
          ("meter" ++ Py.str_int m)%string. }
      cbn [map str]. rewrite Sb, Sm.
      change (Py.strip Py.is_slash "elec") with "elec".
      rewrite Er. simpl. rewrite ?append_assoc. reflexivity.
    - assert (Er : r = ("/building" ++ Py.str_int b)%string) by congruence.
      cbn [map str]. rewrite Sb. rewrite Er. reflexivity. }
  split; [exact E|].
  rewrite E. split.
  - specialize (join_key_by_trailing [SegStr (join_key
      (SegStr ("building" ++ Py.str_int b)
       :: match meter k with
          | Some m => [SegStr "elec"; SegStr ("meter" ++ Py.str_int m)]
          | None => []
          end))]) as J.
    rewrite trailing_joined in J. rewrite J.
    symmetry. apply join_key_by_trailing.
  - apply normalise_key_fixed.
    + apply first_char_join_key.
    + apply join_key_no_trailing_slash.
Qed.

Lemma repr_is_join_key_witness :
  exists b,
    building (mkKey (Some "gas") (Some 3) (Some 7)) = Some b
    /\ "/building3/elec/meter7"
       = join_key
           (SegStr ("building" ++ Py.str_int b)
            :: match meter (mkKey (Some "gas") (Some 3) (Some 7)) with
               | Some m => [SegStr "elec"; SegStr ("meter" ++ Py.str_int m)]
               | None => []
               end)
    /\ join_key [SegStr "/building3/elec/meter7"] = "/building3/elec/meter7"
    /\ normalise_key "/building3/elec/meter7" = Ok "/building3/elec/meter7".
Proof.
  apply (repr_is_join_key (mkKey (Some "gas") (Some 3) (Some 7))
           "/building3/elec/meter7"); reflexivity.
Defined.

(** X22: every row of a frame lies inside one of the periods the read was
    asked for (the default [TimeFrame()] when none was given), as well as
    inside the window. *)
Theorem load_rows_inside_period :
  forall (self : HDFDataStore) (key : string) (cols : option (list string))
         (periods : option (list TimeFrame.t))
         (n_look_ahead_rows chunksize : nat) (c : DataFrame),
    In c (yielded (load self key cols periods n_look_ahead_rows chunksize)) ->
    exists p,
      In p (match periods with
            | None => [TimeFrame.default]
            | Some ps => ps
            end)
      /\ forall r, In r (rows c) ->
           TimeFrame.contains p (index r) = true
           /\ TimeFrame.contains (window self) (index r) = true.
Proof.
  intros self key cols periods n cs c H.
  apply in_load_periods in H.
  destruct H as (k & _ & period & data & la & Hp & Hd & _ & ->).
  exists period. split; [exact Hp|]. simpl.
  apply period_generator_rows in Hd. destruct Hd as [Hf _].
  rewrite Forall_forall in Hf. intros r Hr.
  destruct (Hf r Hr). now split.
Qed.

Lemma load_rows_inside_period_witness :
  exists p,
    In p [TimeFrame.new None (Some 3); TimeFrame.new (Some 4) None]
    /\ forall r, In r (map sample_row [4; 5]) ->
         TimeFrame.contains p (index r) = true
         /\ TimeFrame.contains TimeFrame.default (index r) = true.
Proof.
  apply (load_rows_inside_period (sample_store TimeFrame.default)
           "building1/elec/meter1" None
           (Some [TimeFrame.new None (Some 3); TimeFrame.new (Some 4) None])
           2 5
           (mkDataFrame (map sample_row [4; 5]) []
                        (TimeFrame.new (Some 4) (Some 5)))).
  vm_compute. right. left. reflexivity.
Defined.

(** X23: on a store kept in the order of its index, the rows of every
    frame and of its look-ahead come in that order, and every row of the
    look-ahead has an index above that of every row of the frame. *)
Theorem load_ordered_frames :
  forall (self : HDFDataStore) (key : string) (cols : option (list string))
         (periods : option (list TimeFrame.t))
         (n_look_ahead_rows chunksize : nat) (c : DataFrame),
    index_ordered self ->
    In c (yielded (load self key cols periods n_look_ahead_rows chunksize)) ->
    StronglySorted index_le (rows c)
    /\ StronglySorted index_le (look_ahead c)
    /\ forall r a, In r (rows c) -> In a (look_ahead c) -> index r < index a.
Proof.
  intros self key cols periods n cs c Hord H.
  apply in_load_periods in H.
  destruct H as (k & _ & period & data & la & _ & Hd & Hl & ->).
  simpl.
  apply period_generator_rows in Hd. destruct Hd as [_ Hs].
  specialize (Hs Hord).
  destruct (load_look_ahead_ok self k cols n data la Hl) as (_ & H2 & H3).
  split; [exact Hs|].
  destruct la as [|a0 la']; [split; [constructor | intros r a _ []]|].
  destruct H3 as (_ & t & before & after & G & Hrows & _ & Hla);
    [discriminate|].
  assert (Sla : StronglySorted index_le (a0 :: la')).
  { rewrite Hla. apply sorted_firstn.
    rewrite <- (skipn_before before after), <- Hrows.
    apply sorted_skipn.
    destruct (get_node_storer _ _ _ G) as (k' & Hk'). now apply (Hord k'). }
  split; [exact Sla|].
  intros r a Hr Ha.
  assert (H0 : last_index data < index a0) by now apply (H2 a0 la').
  assert (H1 : index r <= last_index data) by now apply sorted_last.
  assert (Ha0 : index a0 <= index a).
  { destruct Ha as [<- | Ha]; [lia|].
    inversion Sla as [|? ? _ F]; subst. rewrite Forall_forall in F.
    now apply F. }
  lia.
Qed.

Lemma load_ordered_frames_witness :
  StronglySorted index_le (map sample_row [1; 2])
  /\ StronglySorted index_le (map sample_row [3; 4])
  /\ forall r a, In r (map sample_row [1; 2]) ->
                 In a (map sample_row [3; 4]) -> index r < index a.
Proof.
  apply (load_ordered_frames (sample_store TimeFrame.default)
           "building1/elec/meter1" None None 2 2
           (mkDataFrame (map sample_row [1; 2]) (map sample_row [3; 4])
                        (TimeFrame.new (Some 1) (Some 2)))
           (sample_store_ordered _)).
  vm_compute. left. reflexivity.
Defined.
